(** * Locationgrabber: a shallow embedding of [password.py]

    The script gathers the host name, the LAN address, the WAN address and an
    estimated location, prints a report into an in-memory buffer and posts the
    buffer to a webhook.  Everything the script does is a sequence of calls to
    the operating system and to the network, wrapped in [try] statements, so
    the embedding is a state-and-exception monad over

    - a [world]: what the outside answers to each call (sockets, HTTP, the
      JSON library), as a function of everything that happened before, and
    - a [state]: the trace of calls made so far, where [sys.stdout] points,
      the contents of the capture buffer and the number of open sockets. *)

From Stdlib Require Import String Ascii List ZArith Lia Bool DecimalString.
Import ListNotations.

Local Open Scope string_scope.
Local Open Scope Z_scope.

Local Set Warnings "-register-all".

(** ** Text *)

(** A Python [str] is modelled by a Rocq [string] whose characters are the
    code points 0..255. *)

Definition LF : string := String (ascii_of_nat 10) "".
Definition dquote : string := String (ascii_of_nat 34) "".

Definition string_of_nat (n : nat) : string :=
  NilZero.string_of_uint (Nat.to_uint n).

Definition string_of_Z (z : Z) : string :=
  NilZero.string_of_int (Z.to_int z).

(** [f"{delay:.1f}"] for an integer delay (exact below 2^53). *)
Definition format_1f (z : Z) : string := string_of_Z z ++ ".0".

(** [str.isspace] on one character: the code points below 256 that Python
    counts as whitespace. *)
Definition isspace (c : ascii) : bool :=
  let n := nat_of_ascii c in
  ((9 <=? n) && (n <=? 13) || (28 <=? n) && (n <=? 32)
   || (n =? 133) || (n =? 160))%nat.

Fixpoint lstrip_chars (cs : list ascii) : list ascii :=
  match cs with
  | c :: rest => if isspace c then lstrip_chars rest else cs
  | [] => []
  end.

Definition rstrip_chars (cs : list ascii) : list ascii :=
  rev (lstrip_chars (rev cs)).

(** [s.strip()] *)
Definition strip (s : string) : string :=
  string_of_list_ascii (rstrip_chars (lstrip_chars (list_ascii_of_string s))).

(** Truth value of a [str]: only the empty string is false. *)
Definition truthy (s : string) : bool := negb (s =? "")%string.

(** Truth value of what [fetch_data_with_retry] returns: [None] and the empty
    string are false. *)
Definition truthy_opt (o : option string) : bool :=
  match o with
  | Some s => truthy s
  | None => false
  end.

(** ** Exceptions *)

(** The classes the handlers of the script tell apart.  All of them are
    subclasses of [Exception]. *)
Inductive exn_class : Type :=
| URLError          (* urllib.error.URLError (and HTTPError); an OSError *)
| OSError           (* socket.error is OSError: gaierror, timeout, ... *)
| JSONDecodeError   (* json.JSONDecodeError, a ValueError *)
| AttributeError
| OtherException.   (* any other Exception: UnicodeError, RecursionError, ... *)

Record exn : Type := mkExn { exn_cls : exn_class; exn_msg : string }.

(** [except urllib.error.URLError] *)
Definition is_URLError (e : exn) : bool :=
  match exn_cls e with URLError => true | _ => false end.

(** [except socket.error]: OSError and its subclasses. *)
Definition is_socket_error (e : exn) : bool :=
  match exn_cls e with URLError | OSError => true | _ => false end.

(** [except json.JSONDecodeError] *)
Definition is_JSONDecodeError (e : exn) : bool :=
  match exn_cls e with JSONDecodeError => true | _ => false end.

(** [except Exception] and the bare [except:] *)
Definition is_Exception (e : exn) : bool := true.

Inductive result (A : Type) : Type :=
| Ok (a : A)
| Raise (e : exn).
Arguments Ok {A} a.
Arguments Raise {A} e.

(** ** Python values read from JSON *)

Inductive pyval : Type :=
| PNone
| PBool (b : bool)
| PInt (z : Z)
| PFloat (repr : string)
| PStr (s : string)
| PList (items : list pyval)
| PDict (items : list (string * pyval)).

(** [d.get(key, default)] on the items of a dict. *)
Fixpoint dict_get (items : list (string * pyval)) (key : string)
    (default : pyval) : pyval :=
  match items with
  | [] => default
  | (k, v) :: rest => if (k =? key)%string then v else dict_get rest key default
  end.

(** [type(v).__name__], for the message of an [AttributeError]. *)
Definition type_name (v : pyval) : string :=
  match v with
  | PNone => "NoneType"
  | PBool _ => "bool"
  | PInt _ => "int"
  | PFloat _ => "float"
  | PStr _ => "str"
  | PList _ => "list"
  | PDict _ => "dict"
  end.

(** ** Calls to the outside, and what the outside answers *)

Inductive event : Type :=
| EGetHostName                                   (* socket.gethostname() *)
| ESocket                                        (* socket.socket(AF_INET, SOCK_DGRAM) *)
| EConnect (host : string) (port : Z)            (* s.connect((host, port)) *)
| EGetSockName                                   (* s.getsockname() *)
| EGetHostByName (name : string)                 (* socket.gethostbyname(name) *)
| EClose                                         (* s.close() *)
| EUrlopen (url : string) (timeout : Z)          (* urllib.request.urlopen(url, timeout=..) *)
| ESleep (seconds : Z)                           (* time.sleep(seconds) *)
| EStderr (text : string)                        (* print(text, file=sys.stderr) *)
| EConsole (text : string)                       (* text written to the real stdout *)
| ELogging                                       (* logging.basicConfig / setLevel *)
| EPost (url : string) (json : list (string * string)) (timeout : Z).
                                                 (* requests.post(url, json=.., timeout=..) *)

(** The outside world.  Each field gives the outcome of one kind of call,
    given the trace of all calls made before it; [json_loads] and
    [str_object] are the library functions [json.loads] and [str] (on values
    that are not already strings), which are pure. *)
Record world : Type := mkWorld {
  gethostname_out : list event -> result string;
  socket_out : list event -> result unit;
  connect_out : list event -> string -> Z -> result unit;
  getsockname_out : list event -> result (string * Z);
  gethostbyname_out : list event -> string -> result string;
  close_out : list event -> result unit;
  (* urlopen(url, timeout), then response.read().decode('utf-8') *)
  urlopen_out : list event -> string -> Z -> result string;
  post_out : list event -> string -> list (string * string) -> Z -> result unit;
  json_loads : string -> result pyval;
  str_object : pyval -> string
}.

Record state : Type := mkState {
  trace : list event;          (* calls made so far, oldest first *)
  captured : bool;             (* sys.stdout is terminal_output *)
  terminal_output : string;    (* contents of the io.StringIO buffer *)
  open_sockets : nat           (* sockets created and not yet closed *)
}.

Definition init_state : state :=
  {| trace := []; captured := false; terminal_output := ""; open_sockets := 0 |}.

(** The state after the calls [evs] have been made. *)
Definition extend (evs : list event) (st : state) : state :=
  {| trace := trace st ++ evs; captured := captured st;
     terminal_output := terminal_output st; open_sockets := open_sockets st |}.

Definition emit (e : event) (st : state) : state := extend [e] st.

Definition set_captured (b : bool) (st : state) : state :=
  {| trace := trace st; captured := b;
     terminal_output := terminal_output st; open_sockets := open_sockets st |}.

Definition set_buffer (s : string) (st : state) : state :=
  {| trace := trace st; captured := captured st;
     terminal_output := s; open_sockets := open_sockets st |}.

Definition set_sockets (n : nat) (st : state) : state :=
  {| trace := trace st; captured := captured st;
     terminal_output := terminal_output st; open_sockets := n |}.

(** ** The monad: state passing with exceptions *)

Definition M (A : Type) : Type := state -> result A * state.

Definition ret {A} (a : A) : M A := fun st => (Ok a, st).

Definition raise {A} (e : exn) : M A := fun st => (Raise e, st).

Definition bind {A B} (m : M A) (f : A -> M B) : M B :=
  fun st =>
    match m st with
    | (Ok a, st1) => f a st1
    | (Raise e, st1) => (Raise e, st1)
    end.

Notation "x <- m ;; k" := (bind m (fun x => k))
  (at level 61, m at next level, right associativity).
Notation "m ;; k" := (bind m (fun _ => k))
  (at level 61, right associativity).

(** The [except] clauses of a [try] statement, tried in order: the first
    clause whose class matches handles the exception; without a match the
    exception goes on to the caller. *)
Fixpoint select_handler {A} (clauses : list ((exn -> bool) * (exn -> M A)))
    (e : exn) : M A :=
  match clauses with
  | [] => raise e
  | (handles, handler) :: rest =>
      if handles e then handler e else select_handler rest e
  end.

(** [try: body  except C1: h1  except C2: h2 ...] *)
Definition try_except {A} (body : M A)
    (clauses : list ((exn -> bool) * (exn -> M A))) : M A :=
  fun st =>
    match body st with
    | (Ok a, st1) => (Ok a, st1)
    | (Raise e, st1) => select_handler clauses e st1
    end.

(** [try: body  finally: cleanup]: the cleanup always runs; an exception of
    the cleanup replaces the outcome of the body. *)
Definition try_finally {A} (body : M A) (cleanup : M unit) : M A :=
  fun st =>
    match body st with
    | (r, st1) =>
        match cleanup st1 with
        | (Ok _, st2) => (r, st2)
        | (Raise e, st2) => (Raise e, st2)
        end
    end.

(** A call to the outside: the world answers from the trace so far, and the
    call is appended to the trace. *)
Definition call {A} (e : event) (answer : list event -> result A) : M A :=
  fun st => (answer (trace st), emit e st).

(** [print(text)]: one line to wherever [sys.stdout] points. *)
Definition print (text : string) : M unit :=
  fun st =>
    if captured st
    then (Ok tt, set_buffer (terminal_output st ++ text ++ LF) st)
    else (Ok tt, emit (EConsole (text ++ LF)) st).

(** [print(text, file=sys.stderr)] *)
Definition eprint (text : string) : M unit :=
  fun st => (Ok tt, emit (EStderr (text ++ LF)) st).

(** ** The script *)

(** Module-level configuration. *)
Definition PUBLIC_IP_SERVICE_URL : string := "https://api.ipify.org?format=text".
Definition GEOLOCATION_SERVICE_URL : string := "https://ipinfo.io/json".
Definition MAX_RETRIES : nat := 3.
Definition INITIAL_DELAY : Z := 1.

(** The two strings that stand for a failed WAN lookup and its consequence. *)
Definition CONNECTION_FAILED : string := "N/A (Connection Failed)".
Definition REQUIRES_PUBLIC_IP : string := "N/A (Requires Public IP)".
Definition INVALID_RESPONSE : string :=
  "N/A (Invalid response from location service)".
Definition LOOKUP_FAILED : string := "N/A (Location Lookup Failed)".

Section Script.

Variable w : world.

(** *** Primitives *)

Definition gethostname : M string :=
  call EGetHostName (gethostname_out w).

(** [socket.socket(AF_INET, SOCK_DGRAM)]: on success one more socket is open. *)
Definition socket_dgram : M unit :=
  fun st =>
    match socket_out w (trace st) with
    | Ok _ => (Ok tt, set_sockets (S (open_sockets st)) (emit ESocket st))
    | Raise e => (Raise e, emit ESocket st)
    end.

Definition connect (host : string) (port : Z) : M unit :=
  call (EConnect host port) (fun h => connect_out w h host port).

Definition getsockname : M (string * Z) :=
  call EGetSockName (getsockname_out w).

Definition gethostbyname (name : string) : M string :=
  call (EGetHostByName name) (fun h => gethostbyname_out w h name).

(** [s.close()]: the descriptor is released even when the call reports an
    error. *)
Definition close : M unit :=
  fun st =>
    (close_out w (trace st),
     set_sockets (Nat.pred (open_sockets st)) (emit EClose st)).

Definition urlopen (url : string) (timeout : Z) : M string :=
  call (EUrlopen url timeout) (fun h => urlopen_out w h url timeout).

(** The longest sleep [time.sleep] accepts: the seconds, as nanoseconds, must
    fit the 64-bit clock of the interpreter. *)
Definition MAX_SLEEP : Z := 9223372036.

(** [time.sleep(seconds)] for an integer: a negative length is a
    [ValueError] and a length beyond [MAX_SLEEP] an [OverflowError]; neither
    sleeps. *)
Definition sleep (seconds : Z) : M unit :=
  fun st =>
    if seconds <? 0
    then (Raise (mkExn OtherException "sleep length must be non-negative"), st)
    else if MAX_SLEEP <? seconds
    then (Raise (mkExn OtherException
                   "timestamp too large to convert to C _PyTime_t"), st)
    else (Ok tt, emit (ESleep seconds) st).

Definition requests_post (url : string) (json : list (string * string))
    (timeout : Z) : M unit :=
  call (EPost url json timeout) (fun h => post_out w h url json timeout).

Definition loads (text : string) : M pyval :=
  fun st => (json_loads w text, st).

(** [data.get(key, default)]: only a dict has the method. *)
Definition py_get (data : pyval) (key : string) (default : pyval) : M pyval :=
  match data with
  | PDict items => ret (dict_get items key default)
  | _ => raise (mkExn AttributeError
                  ("'" ++ type_name data ++ "' object has no attribute 'get'"))
  end.

(** A value inside an f-string: [str(v)]. *)
Definition format_value (v : pyval) : string :=
  match v with
  | PStr s => s
  | _ => str_object w v
  end.

(** *** get_local_info *)

(** The handler of the outer [try] reads the local [hostname], which holds
    ["N/A"] until [socket.gethostname()] has returned; the body of the outer
    [try] is therefore written in two layers, one for each value the handler
    can see. *)
Definition get_local_info : M (string * string) :=
  let on_socket_error (hostname : string) :=
    [(is_socket_error,
      fun e : exn =>
        eprint ("Error retrieving local network info: " ++ exn_msg e);;
        ret (hostname, "N/A"))] in
  try_except
    (hostname <- gethostname;;
     try_except
       (socket_dgram;;
        local_ip <-
          try_finally
            (try_except
               (connect "8.8.8.8" 1;;
                addr <- getsockname;;
                ret (fst addr))
               [(is_Exception, fun _ => gethostbyname hostname)])
            close;;
        ret (hostname, local_ip))
       (on_socket_error hostname))
    (on_socket_error "N/A").

(** *** fetch_data_with_retry *)

(** The body of [for attempt in range(max_retries)].  The [try] block either
    returns the decoded body ([Some]) or, after a handler has reported the
    failure, falls through to the back-off ([None]). *)
Fixpoint fetch_loop (max_retries : nat) (initial_delay : Z) (url : string)
    (attempts : list nat) : M (option string) :=
  match attempts with
  | [] => ret None
  | attempt :: rest =>
      let prefix :=
        "Attempt " ++ string_of_nat (attempt + 1) ++ "/"
        ++ string_of_nat max_retries in
      returned <-
        try_except
          (body <- urlopen url 5;; ret (Some body))
          [(is_URLError,
            fun e =>
              eprint (prefix ++ ": URLError connecting to " ++ url ++ ". "
                      ++ exn_msg e);;
              ret None);
           (is_Exception,
            fun e =>
              eprint (prefix ++ ": An unexpected error occurred: "
                      ++ exn_msg e);;
              ret None)];;
      match returned with
      | Some body => ret (Some body)
      | None =>
          (if Z.of_nat attempt <? Z.of_nat max_retries - 1
           then
             let delay := initial_delay * 2 ^ Z.of_nat attempt in
             eprint ("Retrying in " ++ format_1f delay ++ " seconds...");;
             sleep delay
           else ret tt);;
          fetch_loop max_retries initial_delay url rest
      end
  end.

Definition fetch_data_with_retry (url : string) : M (option string) :=
  fetch_loop MAX_RETRIES INITIAL_DELAY url (seq 0 MAX_RETRIES).

(** *** get_public_ip *)

Definition get_public_ip : M string :=
  ip_data <- fetch_data_with_retry PUBLIC_IP_SERVICE_URL;;
  match ip_data with
  | Some text => if truthy text then ret (strip text) else ret CONNECTION_FAILED
  | None => ret CONNECTION_FAILED
  end.

(** *** get_geolocation *)

Definition get_geolocation (public_ip : string) : M string :=
  if (public_ip =? CONNECTION_FAILED)%string then ret REQUIRES_PUBLIC_IP
  else
    location_data <- fetch_data_with_retry GEOLOCATION_SERVICE_URL;;
    match location_data with
    | Some text =>
        if truthy text then
          try_except
            (data <- loads text;;
             city <- py_get data "city" (PStr "Unknown City");;
             region <- py_get data "region" (PStr "Unknown Region");;
             country <- py_get data "country" (PStr "Unknown Country");;
             let full_location :=
               format_value city ++ ", " ++ format_value region ++ ", "
               ++ format_value country in
             ret full_location)
            [(is_JSONDecodeError, fun _ => ret INVALID_RESPONSE)]
        else ret LOOKUP_FAILED
    | None => ret LOOKUP_FAILED
    end.

(** *** main *)

Definition RULE : string :=
  "--------------------------------------------------".

Definition main : M unit :=
  print RULE;;
  print "        Network and Host Information Utility        ";;
  print RULE;;
  print (LF ++ "[LOCAL NETWORK INFORMATION (No external calls)]");;
  names <- get_local_info;;
  print ("Desktop Name (Hostname): " ++ fst names);;
  print ("Local IP Address (LAN):  " ++ snd names);;
  print (LF ++ "[PUBLIC NETWORK INFORMATION (Requires external calls)]");;
  public_ip <- get_public_ip;;
  print ("Public IP Address (WAN): " ++ public_ip);;
  (if negb (public_ip =? CONNECTION_FAILED)%string
   then
     geolocation <- get_geolocation public_ip;;
     print ("Estimated Location:      " ++ geolocation)
   else
     print "Estimated Location:      N/A (Failed to retrieve Public IP)");;
  print RULE;;
  print (LF ++ "[Image of network topology]").

(** *** send_to_webhook *)

Definition WEBHOOK_URL : string := "Your_webhook_here".

Definition fenced (text : string) : string :=
  "```json" ++ LF ++ text ++ LF ++ "```".

Definition send_to_webhook (text : string) : M unit :=
  let webhook_url := WEBHOOK_URL in
  let payload := [("content", fenced text)] in
  try_except
    (requests_post webhook_url payload 3)
    [(is_Exception, fun _ => ret tt)].

(** *** The module body *)

(** [is_main] is [__name__ == "__main__"]. *)
Definition module_body (is_main : bool) : M unit :=
  (* terminal_output = io.StringIO(); sys.stdout = terminal_output *)
  (fun st => (Ok tt, set_captured true (set_buffer "" st)));;
  (if is_main
   then (fun st => (Ok tt, emit ELogging st));; main
   else ret tt);;
  main;;
  (* sys.stdout = sys.__stdout__; output = terminal_output.getvalue() *)
  (fun st => (Ok tt, set_captured false st));;
  output <- (fun st => (Ok (terminal_output st), st));;
  send_to_webhook output;;
  (if is_main then ret tt else ret tt).

End Script.

(** Running the file from a fresh interpreter. *)
Definition run (w : world) (is_main : bool) : result unit * state :=
  module_body w is_main init_state.

(** The exit status of the interpreter: 0 when the module body ran to its
    end, 1 when an exception reached the top level. *)
Definition exit_status (r : result unit) : Z :=
  match r with
  | Ok _ => 0
  | Raise _ => 1
  end.

(** ** A JSON reader and a [str] for concrete worlds

    [json.loads] and [str] belong to the Python library, not to the script;
    the theorems below hold for whatever a [world] supplies in their place.
    To run the script on concrete responses, [Json.decode] reads the part of
    JSON made of objects, arrays, strings with the one-letter escapes,
    integers and the three literals (no fraction, no exponent, no [\u]
    escape, no NaN or Infinity), and [Json.str] renders the scalars it
    produces as [str] does. *)
Module Json.

Definition code (c : ascii) : nat := nat_of_ascii c.

Definition is_ws (c : ascii) : bool :=
  ((code c =? 32) || (code c =? 9) || (code c =? 10) || (code c =? 13))%nat.

Definition is_digit (c : ascii) : bool :=
  ((48 <=? code c) && (code c <=? 57))%nat.

Fixpoint skip_ws (cs : list ascii) : list ascii :=
  match cs with
  | c :: rest => if is_ws c then skip_ws rest else cs
  | [] => []
  end.

(** The character an escape letter stands for. *)
Definition unescape (c : ascii) : option ascii :=
  let n := code c in
  if (n =? 34)%nat then Some c                       (* quote *)
  else if (n =? 92)%nat then Some c                  (* backslash *)
  else if (n =? 47)%nat then Some c                  (* slash *)
  else if (n =? 98)%nat then Some (ascii_of_nat 8)   (* b: backspace *)
  else if (n =? 102)%nat then Some (ascii_of_nat 12) (* f: form feed *)
  else if (n =? 110)%nat then Some (ascii_of_nat 10) (* n: line feed *)
  else if (n =? 114)%nat then Some (ascii_of_nat 13) (* r: carriage return *)
  else if (n =? 116)%nat then Some (ascii_of_nat 9)  (* t: tab *)
  else None.

(** The rest of a string literal, after its opening quote. *)
Fixpoint read_string (cs : list ascii) (acc : list ascii)
    : option (string * list ascii) :=
  match cs with
  | [] => None
  | c :: rest =>
      if (code c =? 34)%nat then Some (string_of_list_ascii (rev acc), rest)
      else if (code c =? 92)%nat then
        match rest with
        | e :: rest' =>
            match unescape e with
            | Some ch => read_string rest' (ch :: acc)
            | None => None
            end
        | [] => None
        end
      else if (code c <? 32)%nat then None
      else read_string rest (c :: acc)
  end.

Fixpoint read_digits (cs : list ascii) (acc : Z) : Z * list ascii :=
  match cs with
  | c :: rest =>
      if is_digit c
      then read_digits rest (10 * acc + Z.of_nat (code c - 48))
      else (acc, cs)
  | [] => (acc, [])
  end.

(** An integer: [0] or a nonzero digit followed by digits; a fraction or an
    exponent after it is outside the part of JSON read here. *)
Definition read_natural (cs : list ascii) : option (Z * list ascii) :=
  match cs with
  | c :: rest =>
      if negb (is_digit c) then None
      else
        let '(n, rest') :=
          if (code c =? 48)%nat then (0, rest) else read_digits cs 0 in
        match rest' with
        | d :: _ =>
            if ((code d =? 46) || (code d =? 101) || (code d =? 69))%nat
            then None else Some (n, rest')
        | [] => Some (n, rest')
        end
  | [] => None
  end.

Fixpoint starts_with (word cs : list ascii) : option (list ascii) :=
  match word, cs with
  | [], _ => Some cs
  | x :: word', c :: cs' =>
      if Ascii.eqb x c then starts_with word' cs' else None
  | _ :: _, [] => None
  end.

Definition read_scalar (cs : list ascii) : option (pyval * list ascii) :=
  match starts_with (list_ascii_of_string "null") cs with
  | Some rest => Some (PNone, rest)
  | None =>
  match starts_with (list_ascii_of_string "true") cs with
  | Some rest => Some (PBool true, rest)
  | None =>
  match starts_with (list_ascii_of_string "false") cs with
  | Some rest => Some (PBool false, rest)
  | None =>
  match cs with
  | c :: rest =>
      if (code c =? 45)%nat then
        match read_natural rest with
        | Some (n, rest') => Some (PInt (- n), rest')
        | None => None
        end
      else
        match read_natural cs with
        | Some (n, rest') => Some (PInt n, rest')
        | None => None
        end
  | [] => None
  end end end end.

(** A key read again replaces the value and keeps its first position, as a
    Python dict does. *)
Fixpoint dict_set (items : list (string * pyval)) (key : string) (v : pyval)
    : list (string * pyval) :=
  match items with
  | [] => [(key, v)]
  | (k, x) :: rest =>
      if (k =? key)%string then (k, v) :: rest
      else (k, x) :: dict_set rest key v
  end.

(** [read_value] reads one value at the head of [cs]; [read_members] and
    [read_items] read the rest of an object or an array from its next key or
    element on.  Of any two nested calls one consumes a character, so twice
    the length of the text is fuel enough. *)
Fixpoint read_value (fuel : nat) (cs : list ascii)
    : option (pyval * list ascii) :=
  match fuel with
  | O => None
  | S fuel' =>
      match cs with
      | [] => None
      | c :: rest =>
          if (code c =? 123)%nat then             (* { *)
            match skip_ws rest with
            | d :: rest' =>
                if (code d =? 125)%nat then Some (PDict [], rest')
                else read_members fuel' (d :: rest') []
            | [] => None
            end
          else if (code c =? 91)%nat then         (* [ *)
            match skip_ws rest with
            | d :: rest' =>
                if (code d =? 93)%nat then Some (PList [], rest')
                else read_items fuel' (d :: rest') []
            | [] => None
            end
          else if (code c =? 34)%nat then
            match read_string rest [] with
            | Some (s, rest') => Some (PStr s, rest')
            | None => None
            end
          else read_scalar cs
      end
  end

with read_members (fuel : nat) (cs : list ascii)
    (acc : list (string * pyval)) : option (pyval * list ascii) :=
  match fuel with
  | O => None
  | S fuel' =>
      match cs with
      | c :: rest =>
          if negb (code c =? 34)%nat then None
          else
            match read_string rest [] with
            | None => None
            | Some (key, rest1) =>
                match skip_ws rest1 with
                | colon :: rest2 =>
                    if negb (code colon =? 58)%nat then None
                    else
                      match read_value fuel' (skip_ws rest2) with
                      | None => None
                      | Some (v, rest3) =>
                          let acc' := dict_set acc key v in
                          match skip_ws rest3 with
                          | d :: rest4 =>
                              if (code d =? 125)%nat
                              then Some (PDict acc', rest4)
                              else if (code d =? 44)%nat
                              then read_members fuel' (skip_ws rest4) acc'
                              else None
                          | [] => None
                          end
                      end
                | [] => None
                end
            end
      | [] => None
      end
  end

with read_items (fuel : nat) (cs : list ascii) (acc : list pyval)
    : option (pyval * list ascii) :=
  match fuel with
  | O => None
  | S fuel' =>
      match read_value fuel' cs with
      | None => None
      | Some (v, rest) =>
          match skip_ws rest with
          | d :: rest' =>
              if (code d =? 93)%nat then Some (PList (acc ++ [v]), rest')
              else if (code d =? 44)%nat
              then read_items fuel' (skip_ws rest') (acc ++ [v])
              else None
          | [] => None
          end
      end
  end.

(** [json.loads(text)] on the part of JSON described above: one value,
    surrounded by optional whitespace, and nothing else. *)
Definition decode (text : string) : result pyval :=
  let cs := skip_ws (list_ascii_of_string text) in
  match read_value (2 * length cs + 2) cs with
  | Some (v, rest) =>
      match skip_ws rest with
      | [] => Ok v
      | _ :: _ => Raise (mkExn JSONDecodeError "Extra data")
      end
  | None => Raise (mkExn JSONDecodeError "Expecting value")
  end.

(** [str] of the scalars [decode] produces; a float shows the [repr] it
    carries.  Lists and dicts are shown by their type name only. *)
Definition str (v : pyval) : string :=
  match v with
  | PNone => "None"
  | PBool true => "True"
  | PBool false => "False"
  | PInt z => string_of_Z z
  | PFloat r => r
  | PStr s => s
  | PList _ => "<list>"
  | PDict _ => "<dict>"
  end.

(** A JSON string literal and a flat JSON object, for writing responses. *)
Definition quoted (s : string) : string := dquote ++ s ++ dquote.

Fixpoint members (fields : list (string * string)) : string :=
  match fields with
  | [] => ""
  | [(k, v)] => quoted k ++ ":" ++ quoted v
  | (k, v) :: rest => quoted k ++ ":" ++ quoted v ++ "," ++ members rest
  end.

Definition object (fields : list (string * string)) : string :=
  "{" ++ members fields ++ "}".

End Json.

(** ** Concrete worlds *)

Definition sample_location : string :=
  Json.object [("city", "Paris"); ("region", "Ile-de-France"); ("country", "FR")].

(** A host with a working network: the echo service answers with the address
    and a line feed, the location service with [sample_location], and the
    webhook call fails because the placeholder URL has no scheme. *)
Definition online : world :=
  {| gethostname_out := fun _ => Ok "workstation";
     socket_out := fun _ => Ok tt;
     connect_out := fun _ _ _ => Ok tt;
     getsockname_out := fun _ => Ok ("192.168.1.20", 50000);
     gethostbyname_out := fun _ _ => Ok "127.0.0.1";
     close_out := fun _ => Ok tt;
     urlopen_out := fun _ url _ =>
       if (url =? PUBLIC_IP_SERVICE_URL)%string
       then Ok ("203.0.113.5" ++ LF)
       else Ok sample_location;
     post_out := fun _ _ _ _ =>
       Raise (mkExn OtherException
                "Invalid URL 'Your_webhook_here': No scheme supplied.");
     json_loads := Json.decode;
     str_object := Json.str |}.

(** [online], with the HTTP answers replaced. *)
Definition with_urlopen (answer : list event -> string -> Z -> result string)
    (w : world) : world :=
  {| gethostname_out := gethostname_out w;
     socket_out := socket_out w;
     connect_out := connect_out w;
     getsockname_out := getsockname_out w;
     gethostbyname_out := gethostbyname_out w;
     close_out := close_out w;
     urlopen_out := answer;
     post_out := post_out w;
     json_loads := json_loads w;
     str_object := str_object w |}.

(** No route to any host: every request fails with a [URLError]. *)
Definition offline : world :=
  with_urlopen
    (fun _ _ _ => Raise (mkExn URLError "<urlopen error [Errno 101] Network is unreachable>"))
    online.

(** The echo service works; the location service answers with [body]. *)
Definition location_answers (body : string) : world :=
  with_urlopen
    (fun _ url _ =>
       if (url =? PUBLIC_IP_SERVICE_URL)%string
       then Ok ("203.0.113.5" ++ LF)
       else Ok body)
    online.

(** Both services answer with an empty body. *)
Definition empty_bodies : world :=
  with_urlopen (fun _ _ _ => Ok "") online.

(** A host name of one label of 64 characters: the kernel accepts it, the
    [idna] codec that [gethostbyname] applies to its argument does not (a
    label has at most 63). *)
Definition long_label : string :=
  "workstation-01234567890123456789012345678901234567890123456789ab".

(** No route for the probe socket, and a host name that the resolver cannot
    encode: [gethostbyname] raises a [UnicodeError], which is not an
    [OSError]. *)
Definition unencodable_hostname : world :=
  {| gethostname_out := fun _ => Ok long_label;
     socket_out := fun _ => Ok tt;
     connect_out := fun _ _ _ =>
       Raise (mkExn OSError "[Errno 101] Network is unreachable");
     getsockname_out := fun _ => Ok ("0.0.0.0", 0);
     gethostbyname_out := fun _ _ =>
       Raise (mkExn OtherException
                "encoding with 'idna' codec failed (UnicodeError: label too long)");
     close_out := fun _ => Ok tt;
     urlopen_out := urlopen_out online;
     post_out := post_out online;
     json_loads := Json.decode;
     str_object := Json.str |}.

(** No route for the probe socket and no address for the host name: both
    fail with an [OSError]. *)
Definition unresolvable_hostname : world :=
  {| gethostname_out := fun _ => Ok "workstation";
     socket_out := fun _ => Ok tt;
     connect_out := fun _ _ _ =>
       Raise (mkExn OSError "[Errno 101] Network is unreachable");
     getsockname_out := fun _ => Ok ("0.0.0.0", 0);
     gethostbyname_out := fun _ _ =>
       Raise (mkExn OSError "[Errno -2] Name or service not known");
     close_out := fun _ => Ok tt;
     urlopen_out := urlopen_out online;
     post_out := post_out online;
     json_loads := Json.decode;
     str_object := Json.str |}.

(** No route for the probe socket, but the resolver knows the host name:
    the sandboxed situation that the fallback of [get_local_info] is for. *)
Definition loopback_only : world :=
  {| gethostname_out := fun _ => Ok "workstation";
     socket_out := fun _ => Ok tt;
     connect_out := fun _ _ _ =>
       Raise (mkExn OSError "[Errno 101] Network is unreachable");
     getsockname_out := fun _ => Ok ("0.0.0.0", 0);
     gethostbyname_out := fun _ _ => Ok "127.0.0.1";
     close_out := fun _ => Ok tt;
     urlopen_out := urlopen_out online;
     post_out := post_out online;
     json_loads := Json.decode;
     str_object := Json.str |}.

(** The echo service answers with blanks and a line feed only. *)
Definition blank_echo : world :=
  with_urlopen
    (fun _ url _ =>
       if (url =? PUBLIC_IP_SERVICE_URL)%string
       then Ok ("  " ++ LF)
       else Ok sample_location)
    online.

(** The host has no name to give: [gethostname] fails. *)
Definition nameless : world :=
  {| gethostname_out := fun _ =>
       Raise (mkExn OSError "[Errno 14] Bad address");
     socket_out := socket_out online;
     connect_out := connect_out online;
     getsockname_out := getsockname_out online;
     gethostbyname_out := gethostbyname_out online;
     close_out := close_out online;
     urlopen_out := urlopen_out online;
     post_out := post_out online;
     json_loads := Json.decode;
     str_object := Json.str |}.

(** ** Vocabulary of the properties *)

(** The attempts and the waits among a list of calls. *)
Definition is_attempt (e : event) : bool :=
  match e with EUrlopen _ _ => true | _ => false end.

Definition is_wait (e : event) : bool :=
  match e with ESleep _ => true | _ => false end.

Definition schedule (evs : list event) : list event :=
  filter (fun e => is_attempt e || is_wait e) evs.

Definition waits (evs : list event) : list Z :=
  flat_map (fun e => match e with ESleep s => [s] | _ => [] end) evs.

Definition attempts_made (evs : list event) : nat :=
  length (filter is_attempt evs).

(** What the retry loop is expected to do on the network when nothing ever
    answers: one request per attempt, each but the last followed by a wait
    that doubles. *)
Fixpoint backoff (max_retries : nat) (initial_delay : Z) (url : string)
    (attempts : list nat) : list event :=
  match attempts with
  | [] => []
  | attempt :: rest =>
      EUrlopen url 5
      :: (if (S attempt <? max_retries)%nat
          then [ESleep (initial_delay * 2 ^ Z.of_nat attempt)] else [])
      ++ backoff max_retries initial_delay url rest
  end.

(** With these settings every delay the retry loop can ask for is one that
    [time.sleep] accepts. *)
Definition delays_fit (max_retries : nat) (initial_delay : Z) : Prop :=
  forall attempt : nat,
    (S attempt < max_retries)%nat ->
    0 <= initial_delay * 2 ^ Z.of_nat attempt <= MAX_SLEEP.

(** From the history [h] on, every request to [url] fails. *)
Definition never_answers (w : world) (url : string) (h : list event) : Prop :=
  forall evs, exists e, urlopen_out w (h ++ evs) url 5 = Raise e.

(** [m] respects [R]: whatever [m] does and however it ends, the state it
    leaves is related by [R] to the state it started from. *)
Definition respects (R : state -> state -> Prop) {A} (m : M A) : Prop :=
  forall st r st', m st = (r, st') -> R st st'.

(** The only effect is a list of calls, all of them in [P]: the capture
    buffer, the target of [sys.stdout] and the open sockets are as before. *)
Definition only_calls (P : event -> Prop) (st st' : state) : Prop :=
  exists evs, st' = extend evs st /\ Forall P evs.

(** The calls made are all in [P] (whatever else happened). *)
Definition appends (P : event -> Prop) (st st' : state) : Prop :=
  exists evs, trace st' = (trace st ++ evs)%list /\ Forall P evs.

(** The calls [fetch_data_with_retry url] may make. *)
Definition fetch_event (url : string) (e : event) : Prop :=
  match e with
  | EUrlopen u t => u = url /\ t = 5
  | ESleep _ | EStderr _ => True
  | _ => False
  end.

(** The location string the script builds from the items of a JSON object. *)
Definition location_of (w : world) (items : list (string * pyval)) : string :=
  format_value w (dict_get items "city" (PStr "Unknown City")) ++ ", "
  ++ format_value w (dict_get items "region" (PStr "Unknown Region")) ++ ", "
  ++ format_value w (dict_get items "country" (PStr "Unknown Country")).

(** The result of the geolocation lookup as the specification words it: the
    formatted location when the fetched response is a JSON object, the
    invalid-response text for any other fetched response, and the
    lookup-failed text when the fetch failed. *)
Definition geolocation_as_specified (w : world) (fetched : option string)
    : string :=
  match fetched with
  | None => LOOKUP_FAILED
  | Some text =>
      match json_loads w text with
      | Ok (PDict items) => location_of w items
      | _ => INVALID_RESPONSE
      end
  end.

(** The state after the calls [evs] have been made and the text [out] has
    been written to the capture buffer. *)
Definition grow (evs : list event) (out : string) (st : state) : state :=
  {| trace := trace st ++ evs; captured := captured st;
     terminal_output := terminal_output st ++ out;
     open_sockets := open_sockets st |}.

(** The calls [get_local_info] may make after [socket.gethostname()]. *)
Definition local_event (e : event) : Prop :=
  match e with
  | ESocket | EConnect _ _ | EGetSockName | EGetHostByName _ | EClose
  | EStderr _ => True
  | _ => False
  end.

(** The calls one run of [main] may make after its call of
    [socket.gethostname()], while [sys.stdout] is captured: socket calls,
    requests, waits and reports on stderr. *)
Definition main_event (e : event) : Prop :=
  match e with
  | EGetHostName | EConsole _ | ELogging | EPost _ _ _ => False
  | _ => True
  end.

(** Requests to the location service among a list of calls. *)
Definition is_geo_fetch (e : event) : bool :=
  match e with
  | EUrlopen url _ => (url =? GEOLOCATION_SERVICE_URL)%string
  | _ => false
  end.

Definition geo_fetches (evs : list event) : nat :=
  length (filter is_geo_fetch evs).

(** Calls of [socket.gethostname()] among a list of calls: one per run of
    [main]. *)
Definition is_gethostname (e : event) : bool :=
  match e with EGetHostName => true | _ => false end.

Definition main_runs (evs : list event) : nat :=
  length (filter is_gethostname evs).

(** The POST requests among a list of calls. *)
Definition is_post (e : event) : bool :=
  match e with EPost _ _ _ => true | _ => false end.

Definition posts (evs : list event) : list event := filter is_post evs.

(** Text written to the real stdout among a list of calls. *)
Definition is_console (e : event) : bool :=
  match e with EConsole _ => true | _ => false end.

(** Lines, each ended by a line feed. *)
Definition lines (ls : list string) : string :=
  fold_left (fun acc l => acc ++ l ++ LF) ls "".

(** The report one run of [main] prints. *)
Definition report_text (hostname local_ip public_ip location : string)
    : string :=
  lines
    [RULE;
     "        Network and Host Information Utility        ";
     RULE;
     LF ++ "[LOCAL NETWORK INFORMATION (No external calls)]";
     "Desktop Name (Hostname): " ++ hostname;
     "Local IP Address (LAN):  " ++ local_ip;
     LF ++ "[PUBLIC NETWORK INFORMATION (Requires external calls)]";
     "Public IP Address (WAN): " ++ public_ip;
     "Estimated Location:      " ++ location;
     RULE;
     LF ++ "[Image of network topology]"].

(** [main] up to and including the WAN lookup; the value is what
    [get_public_ip] returned. *)
Definition main_until_wan (w : world) : M string :=
  print RULE;;
  print "        Network and Host Information Utility        ";;
  print RULE;;
  print (LF ++ "[LOCAL NETWORK INFORMATION (No external calls)]");;
  names <- get_local_info w;;
  print ("Desktop Name (Hostname): " ++ fst names);;
  print ("Local IP Address (LAN):  " ++ snd names);;
  print (LF ++ "[PUBLIC NETWORK INFORMATION (Requires external calls)]");;
  get_public_ip w.

(** [main] from the WAN lookup on. *)
Definition main_after_wan (w : world) (public_ip : string) : M unit :=
  print ("Public IP Address (WAN): " ++ public_ip);;
  (if negb (public_ip =? CONNECTION_FAILED)%string
   then
     geolocation <- get_geolocation w public_ip;;
     print ("Estimated Location:      " ++ geolocation)
   else
     print "Estimated Location:      N/A (Failed to retrieve Public IP)");;
  print RULE;;
  print (LF ++ "[Image of network topology]").

(** An outcome that is a value or a [socket.error]. *)
Definition socket_error_or_value {A} (r : result A) : Prop :=
  match r with
  | Ok _ => True
  | Raise e => is_socket_error e = true
  end.

(** In this world [gethostname], [socket], [gethostbyname] and [close] raise
    nothing but [socket.error] (that is, [OSError] and its subclasses).
    Nothing is asked of [connect] and [getsockname], whose exceptions are
    all handled by the inner [except Exception]. *)
Definition socket_errors_only (w : world) : Prop :=
  (forall h, socket_error_or_value (gethostname_out w h))
  /\ (forall h, socket_error_or_value (socket_out w h))
  /\ (forall h name, socket_error_or_value (gethostbyname_out w h name))
  /\ (forall h, socket_error_or_value (close_out w h)).

(** The pair [get_local_info] may return, given what [gethostname]
    answered: ["N/A"] twice when it failed; otherwise the host name, with
    ["N/A"] or an address that [getsockname] or [gethostbyname] supplied. *)
Definition local_info_pair (w : world) (st : state) (pair : string * string)
    : Prop :=
  match gethostname_out w (trace st) with
  | Raise _ => pair = ("N/A", "N/A")
  | Ok hostname =>
      fst pair = hostname
      /\ (snd pair = "N/A"
          \/ (exists h port, getsockname_out w h = Ok (snd pair, port))
          \/ (exists h, gethostbyname_out w h hostname = Ok (snd pair)))
  end.

(** Calls of [s.close()] among a list of calls. *)
Definition is_close (e : event) : bool :=
  match e with EClose => true | _ => false end.

Definition closes (evs : list event) : nat := length (filter is_close evs).

(** Whether a call of [get_local_info] from [st] gets its socket: the host
    name was obtained and [socket.socket] then succeeded. *)
Definition socket_created (w : world) (st : state) : bool :=
  match gethostname_out w (trace st) with
  | Ok _ =>
      match socket_out w (trace st ++ [EGetHostName]) with
      | Ok _ => true
      | Raise _ => false
      end
  | Raise _ => false
  end.

(** A text that is one full report, for some values of its four fields. *)
Definition is_report (text : string) : Prop :=
  exists hostname local_ip public_ip location,
    text = report_text hostname local_ip public_ip location.

(** The call that delivers [text] to the webhook. *)
Definition delivery (text : string) : event :=
  EPost WEBHOOK_URL [("content", fenced text)] 3.

(** A world whose answers do not depend on what happened before: it
    answers a second run of [main] as it answered the first. *)
Definition stationary (w : world) : Prop :=
  (forall h h', gethostname_out w h = gethostname_out w h')
  /\ (forall h h', socket_out w h = socket_out w h')
  /\ (forall h h' host port,
        connect_out w h host port = connect_out w h' host port)
  /\ (forall h h', getsockname_out w h = getsockname_out w h')
  /\ (forall h h' name,
        gethostbyname_out w h name = gethostbyname_out w h' name)
  /\ (forall h h', close_out w h = close_out w h')
  /\ (forall h h' url timeout,
        urlopen_out w h url timeout = urlopen_out w h' url timeout).

(** The state after calls [evs], output [out] to the capture buffer, and a
    change [f] of the number of open sockets. *)
Definition reshape (evs : list event) (out : string) (f : nat -> nat)
    (st : state) : state :=
  {| trace := trace st ++ evs; captured := captured st;
     terminal_output := terminal_output st ++ out;
     open_sockets := f (open_sockets st) |}.

(** [m] does the same from every state in which [sys.stdout] is captured:
    same outcome, same calls, same output. *)
Definition uniform {A} (m : M A) : Prop :=
  exists r evs out f,
    forall st, captured st = true -> m st = (r, reshape evs out f st).

(** In this world [json.loads] either returns a dict or raises
    [JSONDecodeError]. *)
Definition objects_or_decode_errors (w : world) : Prop :=
  forall text,
    match json_loads w text with
    | Ok (PDict _) => True
    | Ok _ => False
    | Raise e => is_JSONDecodeError e = true
    end.

(** [m] returns a value from every state: it never raises. *)
Definition returns {A} (m : M A) : Prop :=
  forall st, exists a st', m st = (Ok a, st').

(** *** Vocabulary of the further properties *)

(** The line a handler of [fetch_data_with_retry] writes to stderr after a
    failed attempt. *)
Definition failure_report (max_retries : nat) (url : string) (attempt : nat)
    (e : exn) : string :=
  let prefix :=
    "Attempt " ++ string_of_nat (attempt + 1) ++ "/"
    ++ string_of_nat max_retries in
  if is_URLError e
  then prefix ++ ": URLError connecting to " ++ url ++ ". " ++ exn_msg e
  else prefix ++ ": An unexpected error occurred: " ++ exn_msg e.

(** The calls of one failed attempt: the request, the report, and, unless
    the attempt was the last one, the announcement of the wait and the
    wait. *)
Definition failed_attempt (max_retries : nat) (initial_delay : Z)
    (url : string) (attempt : nat) (e : exn) : list event :=
  [EUrlopen url 5; EStderr (failure_report max_retries url attempt e ++ LF)]
  ++ (if (S attempt <? max_retries)%nat
      then
        [EStderr (("Retrying in "
                   ++ format_1f (initial_delay * 2 ^ Z.of_nat attempt)
                   ++ " seconds...") ++ LF);
         ESleep (initial_delay * 2 ^ Z.of_nat attempt)]
      else []).

(** [fetch_run w n d url attempts h evs o]: started after the history [h]
    with the attempts [attempts] still to make, the retry loop makes the
    calls [evs] and returns [o]. *)
Inductive fetch_run (w : world) (max_retries : nat) (initial_delay : Z)
    (url : string)
    : list nat -> list event -> list event -> option string -> Prop :=
| fetch_run_exhausted (h : list event) :
    fetch_run w max_retries initial_delay url [] h [] None
| fetch_run_answered (attempt : nat) (rest : list nat) (h : list event)
    (body : string) :
    urlopen_out w h url 5 = Ok body ->
    fetch_run w max_retries initial_delay url (attempt :: rest) h
      [EUrlopen url 5] (Some body)
| fetch_run_failed (attempt : nat) (rest : list nat) (h : list event)
    (e : exn) (evs : list event) (o : option string) :
    urlopen_out w h url 5 = Raise e ->
    fetch_run w max_retries initial_delay url rest
      (h ++ failed_attempt max_retries initial_delay url attempt e) evs o ->
    fetch_run w max_retries initial_delay url (attempt :: rest) h
      (failed_attempt max_retries initial_delay url attempt e ++ evs) o.

(** Seconds spent in [time.sleep] among a list of calls. *)
Definition slept (evs : list event) : Z := fold_right Z.add 0 (waits evs).

(** A list of characters that does not start with whitespace. *)
Definition clean_head (cs : list ascii) : Prop :=
  match cs with
  | [] => True
  | c :: _ => isspace c = false
  end.

(** The total weight of a list of calls. *)
Definition cost (wt : event -> Z) (evs : list event) : Z :=
  fold_right (fun e acc => wt e + acc) 0 evs.

(** One for each request ... *)
Definition request_weight (e : event) : Z :=
  match e with EUrlopen _ _ => 1 | _ => 0 end.

(** ... and the seconds of each sleep. *)
Definition sleep_weight (e : event) : Z :=
  match e with ESleep seconds => seconds | _ => 0 end.

(** Whatever [m] does and however it ends, the calls it makes weigh at most
    [k]. *)
Definition within (wt : event -> Z) (k : Z) {A} (m : M A) : Prop :=
  forall st r st',
    m st = (r, st') ->
    exists evs, trace st' = (trace st ++ evs)%list /\ 0 <= cost wt evs <= k.

(** Every body the location service answers with is one that [json.loads]
    reads as a dict or rejects with [JSONDecodeError]. *)
Definition location_bodies_decodable (w : world) : Prop :=
  forall h body,
    urlopen_out w h GEOLOCATION_SERVICE_URL 5 = Ok body ->
    match json_loads w body with
    | Ok (PDict _) => True
    | Ok _ => False
    | Raise e => is_JSONDecodeError e = true
    end.

(** The text printed for the location when the WAN lookup failed. *)
Definition NO_PUBLIC_IP : string := "N/A (Failed to retrieve Public IP)".

(** * Properties of the script *)

(** ** States and traces *)

Lemma extend_nil (st : state) : extend [] st = st.
Proof. destruct st; unfold extend; simpl; rewrite app_nil_r; reflexivity. Qed.

Lemma extend_extend (evs1 evs2 : list event) (st : state) :
  extend evs2 (extend evs1 st) = extend (evs1 ++ evs2) st.
Proof. unfold extend; simpl; rewrite app_assoc; reflexivity. Qed.

Lemma append_nil_r (s : string) : s ++ "" = s.
Proof. induction s as [|c s IH]; cbn; [reflexivity | rewrite IH; reflexivity]. Qed.

Lemma append_assoc (s1 s2 s3 : string) : (s1 ++ s2) ++ s3 = s1 ++ s2 ++ s3.
Proof.
  induction s1 as [|c s1 IH]; cbn; [reflexivity | rewrite IH; reflexivity].
Qed.

Lemma append_inv_head (s s1 s2 : string) : s ++ s1 = s ++ s2 -> s1 = s2.
Proof.
  induction s as [|c s IH]; cbn; intros H; [exact H|].
  inversion H. auto.
Qed.

Lemma grow_nil (st : state) : grow [] "" st = st.
Proof.
  destruct st; unfold grow; cbn. rewrite app_nil_r, append_nil_r. reflexivity.
Qed.

Lemma extend_grow (evs evs' : list event) (out : string) (st : state) :
  extend evs' (grow evs out st) = grow (evs ++ evs') out st.
Proof. unfold extend, grow; cbn. rewrite app_assoc. reflexivity. Qed.

(** ** Running binds *)

Lemma bind_ok {A B} (m : M A) (f : A -> M B) (st st1 : state) (a : A) :
  m st = (Ok a, st1) -> bind m f st = f a st1.
Proof. intros H. unfold bind. rewrite H. reflexivity. Qed.

Lemma bind_raise {A B} (m : M A) (f : A -> M B) (st st1 : state) (e : exn) :
  m st = (Raise e, st1) -> bind m f st = (Raise e, st1).
Proof. intros H. unfold bind. rewrite H. reflexivity. Qed.

Lemma print_grow (text : string) (evs : list event) (out : string)
    (st : state) :
  captured st = true ->
  print text (grow evs out st) = (Ok tt, grow evs (out ++ text ++ LF) st).
Proof.
  intros Hcap. unfold print. cbn [grow captured]. rewrite Hcap.
  unfold set_buffer, grow; cbn. rewrite append_assoc. reflexivity.
Qed.

Lemma bind_print_grow {B} (text : string) (k : unit -> M B)
    (evs : list event) (out : string) (st : state) :
  captured st = true ->
  bind (print text) k (grow evs out st)
  = k tt (grow evs (out ++ text ++ LF) st).
Proof. intros Hcap. apply bind_ok, print_grow, Hcap. Qed.

(** ** Footprints *)

Section Respects.

Variable R : state -> state -> Prop.
Hypothesis R_refl : forall st, R st st.
Hypothesis R_trans : forall a b c, R a b -> R b c -> R a c.

Lemma respects_ret {A} (a : A) : respects R (ret a).
Proof. intros st r st' H. inversion H. apply R_refl. Qed.

Lemma respects_raise {A} (e : exn) : respects R (@raise A e).
Proof. intros st r st' H. inversion H. apply R_refl. Qed.

Lemma respects_bind {A B} (m : M A) (f : A -> M B) :
  respects R m -> (forall a, respects R (f a)) -> respects R (bind m f).
Proof.
  intros Hm Hf st r st' H. unfold bind in H.
  destruct (m st) as [[a|e] st1] eqn:E.
  - eapply R_trans; [eapply Hm, E | eapply Hf, H].
  - inversion H; subst. eapply Hm, E.
Qed.

Lemma respects_select_handler {A}
    (clauses : list ((exn -> bool) * (exn -> M A))) (e : exn) :
  Forall (fun c => forall e', respects R (snd c e')) clauses ->
  respects R (select_handler clauses e).
Proof.
  induction 1 as [|[handles handler] rest Hc _ IH]; cbn [select_handler].
  - apply respects_raise.
  - destruct (handles e); [apply Hc | apply IH].
Qed.

Lemma respects_try_except {A} (body : M A)
    (clauses : list ((exn -> bool) * (exn -> M A))) :
  respects R body ->
  Forall (fun c => forall e, respects R (snd c e)) clauses ->
  respects R (try_except body clauses).
Proof.
  intros Hb Hc st r st' H. unfold try_except in H.
  destruct (body st) as [[a|e] st1] eqn:E.
  - inversion H; subst. eapply Hb, E.
  - eapply R_trans; [eapply Hb, E|].
    eapply respects_select_handler; eassumption.
Qed.

Lemma respects_try_finally {A} (body : M A) (cleanup : M unit) :
  respects R body -> respects R cleanup ->
  respects R (try_finally body cleanup).
Proof.
  intros Hb Hc st r st' H. unfold try_finally in H.
  destruct (body st) as [r1 st1] eqn:E.
  destruct (cleanup st1) as [[u|e] st2] eqn:E2; inversion H; subst;
    (eapply R_trans; [eapply Hb, E | eapply Hc, E2]).
Qed.

End Respects.

Lemma only_calls_refl (P : event -> Prop) (st : state) : only_calls P st st.
Proof. exists []. rewrite extend_nil. split; [reflexivity | constructor]. Qed.

Lemma only_calls_trans (P : event -> Prop) (a b c : state) :
  only_calls P a b -> only_calls P b c -> only_calls P a c.
Proof.
  intros (evs1 & -> & H1) (evs2 & -> & H2).
  exists (evs1 ++ evs2)%list. rewrite extend_extend.
  split; [reflexivity | apply Forall_app; split; assumption].
Qed.

Lemma appends_refl (P : event -> Prop) (st : state) : appends P st st.
Proof. exists []. rewrite app_nil_r. split; [reflexivity | constructor]. Qed.

Lemma appends_trans (P : event -> Prop) (a b c : state) :
  appends P a b -> appends P b c -> appends P a c.
Proof.
  intros (evs1 & E1 & H1) (evs2 & E2 & H2).
  exists (evs1 ++ evs2)%list. rewrite E2, E1, app_assoc.
  split; [reflexivity | apply Forall_app; split; assumption].
Qed.

(** The primitives that only add a call to the trace. *)
Lemma call_only_calls (P : event -> Prop) {A} (e : event)
    (answer : list event -> result A) :
  P e -> respects (only_calls P) (call e answer).
Proof.
  intros He st r st' H. inversion H; subst.
  exists [e]. split; [reflexivity | repeat constructor; exact He].
Qed.

Lemma eprint_only_calls (P : event -> Prop) (text : string) :
  P (EStderr (text ++ LF)) -> respects (only_calls P) (eprint text).
Proof.
  intros He st r st' H. inversion H; subst.
  eexists [_]. split; [reflexivity | repeat constructor; exact He].
Qed.

Lemma sleep_only_calls (P : event -> Prop) (seconds : Z) :
  P (ESleep seconds) -> respects (only_calls P) (sleep seconds).
Proof.
  intros He st r st' H. unfold sleep in H.
  destruct (seconds <? 0); [inversion H; subst; apply only_calls_refl|].
  destruct (MAX_SLEEP <? seconds);
    [inversion H; subst; apply only_calls_refl|].
  inversion H; subst.
  eexists [_]. split; [reflexivity | repeat constructor; exact He].
Qed.

(** A delay within the accepted range is slept. *)
Lemma sleep_ok (seconds : Z) (st : state) :
  0 <= seconds <= MAX_SLEEP ->
  sleep seconds st = (Ok tt, emit (ESleep seconds) st).
Proof.
  intros H. unfold sleep.
  destruct (Z.ltb_spec seconds 0); [lia|].
  destruct (Z.ltb_spec MAX_SLEEP seconds); [lia|]. reflexivity.
Qed.

(** The delays of the script, 1 and 2 seconds, are accepted. *)
Lemma script_delays_fit : delays_fit MAX_RETRIES INITIAL_DELAY.
Proof.
  intros attempt H. unfold MAX_RETRIES in H. unfold INITIAL_DELAY, MAX_SLEEP.
  destruct attempt as [|[|attempt]]; cbn; lia.
Qed.

Lemma print_appends (P : event -> Prop) (text : string) :
  (forall t, P (EConsole t)) -> respects (appends P) (print text).
Proof.
  intros He st r st' H. unfold print in H.
  destruct (captured st); inversion H; subst.
  - exists []. cbn [set_buffer trace]. rewrite app_nil_r.
    split; [reflexivity | constructor].
  - eexists [_]. split; [reflexivity | repeat constructor; apply He].
Qed.

(** One step of a footprint proof for [only_calls]: the goal is split along
    the structure of the computation. *)
Ltac only_calls_step :=
  first
    [ apply respects_ret; apply only_calls_refl
    | apply respects_raise; apply only_calls_refl
    | apply respects_bind; [apply only_calls_trans | | intros ?]
    | apply respects_try_except;
      [apply only_calls_refl | apply only_calls_trans | | repeat constructor; intros ?]
    | apply respects_try_finally; [apply only_calls_trans | | ]
    | apply call_only_calls
    | apply eprint_only_calls
    | apply sleep_only_calls
    | match goal with
      | |- respects _ (if ?b then _ else _) => destruct b
      | |- respects _ (match ?x with _ => _ end) => destruct x
      | |- respects _ (let _ := _ in _) => cbv zeta
      | |- respects _ (snd _ _) => cbn [snd]
      end ].

(** ** fetch_data_with_retry *)

Section Fetch.

Variable w : world.

(** One failed attempt: the request, the report on stderr, and the back-off
    when another attempt follows. *)
Lemma fetch_loop_failed_attempt (n : nat) (d : Z) (Hfit : delays_fit n d)
    (url : string) (attempt : nat) (rest : list nat) (st : state) (e : exn) :
  urlopen_out w (trace st) url 5 = Raise e ->
  exists noise,
    fetch_loop w n d url (attempt :: rest) st
    = fetch_loop w n d url rest (extend noise st)
    /\ schedule noise
       = EUrlopen url 5
         :: (if (S attempt <? n)%nat
             then [ESleep (d * 2 ^ Z.of_nat attempt)] else []).
Proof.
  intros Hfail.
  assert (Hcmp : (Z.of_nat attempt <? Z.of_nat n - 1) = (S attempt <? n)%nat).
  { destruct (Nat.ltb_spec (S attempt) n); [apply Z.ltb_lt | apply Z.ltb_ge]; lia. }
  cbn [fetch_loop]. unfold bind at 1. unfold try_except at 1.
  unfold bind at 1. unfold urlopen at 1. unfold call at 1. rewrite Hfail.
  cbn [select_handler]. rewrite Hcmp.
  destruct (Nat.ltb_spec (S attempt) n) as [Hlt|Hge];
    destruct (is_URLError e); cbn [is_Exception];
    unfold bind, eprint, ret; cbn beta iota zeta;
    rewrite ?(sleep_ok _ _ (Hfit attempt Hlt));
    unfold emit; rewrite !extend_extend; cbn [app].
  all: eexists; split; reflexivity.
Qed.

(** Without a condition on the settings: a failed attempt either goes on to
    the next one or ends in the exception of [time.sleep]. *)
Lemma fetch_loop_failed_step (n : nat) (d : Z) (url : string)
    (attempt : nat) (rest : list nat) (st : state) (e : exn) :
  urlopen_out w (trace st) url 5 = Raise e ->
  (exists noise,
     fetch_loop w n d url (attempt :: rest) st
     = fetch_loop w n d url rest (extend noise st))
  \/ (exists e' st', fetch_loop w n d url (attempt :: rest) st = (Raise e', st')).
Proof.
  intros Hfail.
  remember (fetch_loop w n d url (attempt :: rest) st) as outcome eqn:Hrun.
  cbn [fetch_loop] in Hrun. unfold bind at 1 in Hrun.
  unfold try_except at 1 in Hrun. unfold bind at 1 in Hrun.
  unfold urlopen at 1 in Hrun. unfold call at 1 in Hrun. rewrite Hfail in Hrun.
  cbn [select_handler] in Hrun.
  destruct (Z.of_nat attempt <? Z.of_nat n - 1);
    destruct (is_URLError e); cbn [is_Exception] in Hrun;
    unfold bind, eprint, sleep, ret in Hrun; cbn beta iota zeta in Hrun;
    try (destruct (d * 2 ^ Z.of_nat attempt <? 0);
         [right; subst outcome; eexists _, _; reflexivity|];
         destruct (MAX_SLEEP <? d * 2 ^ Z.of_nat attempt);
         [right; subst outcome; eexists _, _; reflexivity|]);
    left; unfold emit in Hrun; rewrite !extend_extend in Hrun;
    subst outcome; eexists; reflexivity.
Qed.

Lemma never_answers_later (url : string) (h evs : list event) :
  never_answers w url h -> never_answers w url (h ++ evs).
Proof.
  intros Hfail evs'. rewrite <- app_assoc. apply Hfail.
Qed.

(** When every request fails, the loop runs through all its attempts,
    returns [None], and its network activity is [backoff]. *)
Lemma fetch_loop_exhausted (n : nat) (d : Z) (Hfit : delays_fit n d)
    (url : string) (attempts : list nat) :
  forall st : state,
  never_answers w url (trace st) ->
  exists evs,
    fetch_loop w n d url attempts st = (Ok None, extend evs st)
    /\ schedule evs = backoff n d url attempts.
Proof.
  induction attempts as [|attempt rest IH]; intros st Hfail.
  - exists []. rewrite extend_nil. split; reflexivity.
  - destruct (Hfail []) as [e He]. rewrite app_nil_r in He.
    destruct (fetch_loop_failed_attempt n d Hfit url attempt rest st e He)
      as (noise & Hstep & Hnoise).
    destruct (IH (extend noise st)) as (evs & Hrun & Hsched).
    { apply never_answers_later, Hfail. }
    exists (noise ++ evs)%list. split.
    + rewrite Hstep, Hrun, extend_extend. reflexivity.
    + unfold schedule in *. rewrite filter_app, Hnoise, Hsched.
      cbn [backoff]. reflexivity.
Qed.

(** The first request that is answered ends the loop at once. *)
Lemma fetch_loop_answered (n : nat) (d : Z) (url : string) (attempt : nat)
    (rest : list nat) (st : state) (body : string) :
  urlopen_out w (trace st) url 5 = Ok body ->
  fetch_loop w n d url (attempt :: rest) st
  = (Ok (Some body), emit (EUrlopen url 5) st).
Proof.
  intros Hok. cbn [fetch_loop]. unfold bind at 1. unfold try_except at 1.
  unfold bind at 1. unfold urlopen at 1. unfold call at 1. rewrite Hok.
  reflexivity.
Qed.

(** The loop makes no other calls than its requests, its waits and its
    reports on stderr, and touches nothing else. *)
Lemma fetch_loop_only_calls (n : nat) (d : Z) (url : string)
    (attempts : list nat) :
  respects (only_calls (fetch_event url)) (fetch_loop w n d url attempts).
Proof.
  induction attempts as [|attempt rest IH]; cbn [fetch_loop].
  - only_calls_step.
  - unfold urlopen. repeat only_calls_step; cbn; auto.
Qed.

(** The loop never raises: every exception of a request is handled, and
    the delays are accepted. *)
Lemma fetch_loop_returns (n : nat) (d : Z) (Hfit : delays_fit n d)
    (url : string) (attempts : list nat) :
  forall st, exists o st', fetch_loop w n d url attempts st = (Ok o, st').
Proof.
  induction attempts as [|attempt rest IH]; intros st.
  - eexists _, _. reflexivity.
  - destruct (urlopen_out w (trace st) url 5) as [body|e] eqn:E.
    + eexists _, _. apply fetch_loop_answered, E.
    + destruct (fetch_loop_failed_attempt n d Hfit url attempt rest st e E)
        as (noise & -> & _).
      apply IH.
Qed.

(** A body that the loop returns is one that a request was answered with. *)
Lemma fetch_loop_sound (n : nat) (d : Z) (url : string)
    (attempts : list nat) :
  forall st body st',
  fetch_loop w n d url attempts st = (Ok (Some body), st') ->
  exists h, urlopen_out w h url 5 = Ok body.
Proof.
  induction attempts as [|attempt rest IH]; intros st body st' H.
  - discriminate H.
  - destruct (urlopen_out w (trace st) url 5) as [body'|e] eqn:E.
    + rewrite (fetch_loop_answered n d url attempt rest st body' E) in H.
      inversion H; subst. eexists. exact E.
    + destruct (fetch_loop_failed_step n d url attempt rest st e E)
        as [(noise & Hstep) | (e' & st1 & Hstep)];
        rewrite Hstep in H; [eapply IH, H | discriminate H].
Qed.

Lemma fetch_data_with_retry_run (url : string) (st : state) :
  exists o evs,
    fetch_data_with_retry w url st = (Ok o, extend evs st)
    /\ Forall (fetch_event url) evs.
Proof.
  unfold fetch_data_with_retry.
  destruct (fetch_loop_returns MAX_RETRIES INITIAL_DELAY script_delays_fit url
              (seq 0 MAX_RETRIES) st) as (o & st' & H).
  destruct (fetch_loop_only_calls MAX_RETRIES INITIAL_DELAY url
              (seq 0 MAX_RETRIES) st _ _ H) as (evs & -> & Hevs).
  exists o, evs. split; assumption.
Qed.

Lemma fetch_data_with_retry_answered (url : string) (st : state)
    (body : string) :
  urlopen_out w (trace st) url 5 = Ok body ->
  fetch_data_with_retry w url st
  = (Ok (Some body), emit (EUrlopen url 5) st).
Proof. apply fetch_loop_answered. Qed.

End Fetch.

(** The attempts and the waits of a run are those of its schedule. *)
Lemma attempts_made_schedule (evs : list event) :
  attempts_made evs = attempts_made (schedule evs).
Proof.
  unfold attempts_made, schedule.
  induction evs as [|e evs IH]; [reflexivity|].
  destruct e; cbn [filter is_attempt is_wait orb length]; congruence.
Qed.

Lemma waits_schedule (evs : list event) :
  waits evs = waits (schedule evs).
Proof.
  unfold waits, schedule.
  induction evs as [|e evs IH]; [reflexivity|].
  destruct e; cbn [filter flat_map is_attempt is_wait orb app]; congruence.
Qed.

(** [backoff] makes one request per attempt ... *)
Lemma backoff_attempts (n : nat) (d : Z) (url : string) (attempts : list nat) :
  attempts_made (backoff n d url attempts) = length attempts.
Proof.
  unfold attempts_made.
  induction attempts as [|attempt rest IH]; [reflexivity|].
  cbn [backoff filter is_attempt length].
  rewrite filter_app.
  destruct (S attempt <? n)%nat; cbn [filter is_attempt app]; rewrite IH;
    reflexivity.
Qed.

(** ... and waits [d * 2^i] after attempt [i], except after the last one. *)
Lemma backoff_waits (n : nat) (d : Z) (url : string) :
  forall m k : nat,
  (k + m = n)%nat ->
  waits (backoff n d url (seq k m))
  = map (fun i => d * 2 ^ Z.of_nat i) (seq k (m - 1)).
Proof.
  induction m as [|m IH]; intros k Hkm; [reflexivity|].
  cbn [seq backoff]. unfold waits in *. cbn [flat_map app].
  rewrite flat_map_app, IH by lia.
  destruct m as [|m].
  - replace (S k <? n)%nat with false
      by (symmetry; apply Nat.ltb_ge; lia).
    reflexivity.
  - replace (S k <? n)%nat with true
      by (symmetry; apply Nat.ltb_lt; lia).
    cbn [flat_map app Nat.sub seq map]. rewrite Nat.sub_0_r. reflexivity.
Qed.

(** C1. When every request to a URL fails, [fetch_data_with_retry] returns
    [None] after exactly [MAX_RETRIES] = 3 requests; it sleeps 1 second after
    the first failure and 2 seconds after the second, that is
    [INITIAL_DELAY * 2^i] after attempt [i], and does not sleep after the
    last one.  Apart from these calls and the reports on stderr it changes
    nothing. *)
Theorem fetch_data_with_retry_exhausted (w : world) (url : string)
    (st : state) :
  never_answers w url (trace st) ->
  exists evs,
    fetch_data_with_retry w url st = (Ok None, extend evs st)
    /\ schedule evs
       = [EUrlopen url 5; ESleep 1; EUrlopen url 5; ESleep 2; EUrlopen url 5]
    /\ attempts_made evs = MAX_RETRIES
    /\ waits evs
       = map (fun i => INITIAL_DELAY * 2 ^ Z.of_nat i) (seq 0 (MAX_RETRIES - 1)).
Proof.
  intros Hfail. unfold fetch_data_with_retry.
  destruct (fetch_loop_exhausted w MAX_RETRIES INITIAL_DELAY
              script_delays_fit url
              (seq 0 MAX_RETRIES) st Hfail) as (evs & Hrun & Hsched).
  exists evs. split; [exact Hrun|]. split; [|split].
  - rewrite Hsched. reflexivity.
  - rewrite attempts_made_schedule, Hsched, backoff_attempts.
    apply length_seq.
  - rewrite waits_schedule, Hsched. apply backoff_waits. reflexivity.
Qed.

Lemma fetch_data_with_retry_exhausted_witness :
  never_answers offline GEOLOCATION_SERVICE_URL (trace init_state)
  /\
  exists evs,
    fetch_data_with_retry offline GEOLOCATION_SERVICE_URL init_state
    = (Ok None, extend evs init_state)
    /\ schedule evs
       = [EUrlopen GEOLOCATION_SERVICE_URL 5; ESleep 1;
          EUrlopen GEOLOCATION_SERVICE_URL 5; ESleep 2;
          EUrlopen GEOLOCATION_SERVICE_URL 5]
    /\ attempts_made evs = MAX_RETRIES
    /\ waits evs
       = map (fun i => INITIAL_DELAY * 2 ^ Z.of_nat i) (seq 0 (MAX_RETRIES - 1)).
Proof.
  assert (H : never_answers offline GEOLOCATION_SERVICE_URL (trace init_state))
    by (intros evs; eexists; reflexivity).
  split; [exact H|].
  exact (fetch_data_with_retry_exhausted offline GEOLOCATION_SERVICE_URL
           init_state H).
Defined.

(** ** send_to_webhook *)

Lemma send_to_webhook_run (w : world) (text : string) (st : state) :
  send_to_webhook w text st
  = (Ok tt, extend [EPost WEBHOOK_URL [("content", fenced text)] 3] st).
Proof.
  unfold send_to_webhook, try_except, requests_post, call.
  destruct (post_out w (trace st) WEBHOOK_URL [("content", fenced text)] 3)
    as [[]|e]; reflexivity.
Qed.

(** C7. Whatever the text and whatever the outcome of the request,
    [send_to_webhook] makes exactly one call, a POST to the webhook URL with
    the JSON body [{"content": "```json\n<text>\n```"}] and a timeout of 3
    seconds, and returns normally: no second request, no message, no
    exception. *)
Theorem send_to_webhook_single_post (w : world) (text : string) (st : state) :
  send_to_webhook w text st
  = (Ok tt,
     extend
       [EPost WEBHOOK_URL [("content", "```json" ++ LF ++ text ++ LF ++ "```")] 3]
       st).
Proof. apply send_to_webhook_run. Qed.

(** ** get_public_ip *)

Lemma truthy_true (s : string) : s <> "" -> truthy s = true.
Proof.
  intros Hs. unfold truthy. destruct (String.eqb_spec s ""); [contradiction|].
  reflexivity.
Qed.

Lemma truthy_opt_false (o : option string) :
  truthy_opt o = false <-> o = None \/ o = Some "".
Proof.
  destruct o as [s|]; cbn [truthy_opt]; unfold truthy.
  - destruct (String.eqb_spec s ""); cbn [negb]; split; intros H.
    + right. congruence.
    + reflexivity.
    + discriminate.
    + destruct H as [H|H]; congruence.
  - split; auto.
Qed.

Lemma get_public_ip_of_fetch (w : world) (st : state)
    (fetched : option string) (st1 : state) :
  fetch_data_with_retry w PUBLIC_IP_SERVICE_URL st = (Ok fetched, st1) ->
  get_public_ip w st
  = (Ok (match fetched with
         | Some text => if truthy text then strip text else CONNECTION_FAILED
         | None => CONNECTION_FAILED
         end), st1).
Proof.
  intros H. unfold get_public_ip, bind. rewrite H.
  destruct fetched as [text|]; [destruct (truthy text)|]; reflexivity.
Qed.

(** C8, as stated, fails: a fetch that succeeds with an empty body does not
    yield the (empty) trimmed body but the failure text. *)
Lemma get_public_ip_empty_body_counterexample :
  ~ (forall (w : world) (st : state) (body : string) (st1 : state),
       fetch_data_with_retry w PUBLIC_IP_SERVICE_URL st = (Ok (Some body), st1) ->
       get_public_ip w st = (Ok (strip body), st1))
  /\ fst (fetch_data_with_retry empty_bodies PUBLIC_IP_SERVICE_URL init_state)
     = Ok (Some "")
  /\ fst (get_public_ip empty_bodies init_state) = Ok CONNECTION_FAILED
  /\ strip "" = "".
Proof.
  split; [|repeat split; reflexivity].
  intros H.
  specialize (H empty_bodies init_state ""
                (emit (EUrlopen PUBLIC_IP_SERVICE_URL 5) init_state) eq_refl).
  vm_compute in H. discriminate H.
Qed.

(** C8, amended. Whenever the fetch of the echo service returns a body that
    is not empty, [get_public_ip] returns that body with the surrounding
    whitespace removed; whenever the fetch is exhausted it returns
    ["N/A (Connection Failed)"].  The state is the one the fetch left. *)
Theorem get_public_ip_trims_body (w : world) (st : state)
    (fetched : option string) (st1 : state) :
  fetch_data_with_retry w PUBLIC_IP_SERVICE_URL st = (Ok fetched, st1) ->
  (forall body, fetched = Some body -> body <> "" ->
     get_public_ip w st = (Ok (strip body), st1))
  /\ (fetched = None -> get_public_ip w st = (Ok CONNECTION_FAILED, st1)).
Proof.
  intros H. rewrite (get_public_ip_of_fetch w st fetched st1 H). split.
  - intros body -> Hne. rewrite (truthy_true body Hne). reflexivity.
  - intros ->. reflexivity.
Qed.

Lemma get_public_ip_trims_body_witness :
  get_public_ip online init_state
  = (Ok "203.0.113.5", emit (EUrlopen PUBLIC_IP_SERVICE_URL 5) init_state).
Proof.
  assert (Hfetch :
    fetch_data_with_retry online PUBLIC_IP_SERVICE_URL init_state
    = (Ok (Some ("203.0.113.5" ++ LF)),
       emit (EUrlopen PUBLIC_IP_SERVICE_URL 5) init_state))
    by reflexivity.
  assert (Hne : "203.0.113.5" ++ LF <> "") by discriminate.
  exact (proj1 (get_public_ip_trims_body online init_state _ _ Hfetch)
           ("203.0.113.5" ++ LF) eq_refl Hne).
Defined.

(** ** get_geolocation *)

Lemma get_geolocation_of_fetch (w : world) (public_ip : string) (st : state)
    (fetched : option string) (st1 : state) :
  public_ip <> CONNECTION_FAILED ->
  fetch_data_with_retry w GEOLOCATION_SERVICE_URL st = (Ok fetched, st1) ->
  get_geolocation w public_ip st
  = match fetched with
    | Some text =>
        if truthy text then
          match json_loads w text with
          | Ok (PDict items) => (Ok (location_of w items), st1)
          | Ok data =>
              (Raise (mkExn AttributeError
                        ("'" ++ type_name data
                         ++ "' object has no attribute 'get'")), st1)
          | Raise e =>
              if is_JSONDecodeError e then (Ok INVALID_RESPONSE, st1)
              else (Raise e, st1)
          end
        else (Ok LOOKUP_FAILED, st1)
    | None => (Ok LOOKUP_FAILED, st1)
    end.
Proof.
  intros Hip H. unfold get_geolocation.
  destruct (String.eqb_spec public_ip CONNECTION_FAILED); [contradiction|].
  unfold bind at 1. rewrite H.
  destruct fetched as [text|]; [|reflexivity].
  destruct (truthy text); [|reflexivity].
  unfold try_except, bind, loads.
  destruct (json_loads w text) as [data|e]; [|cbn [select_handler];
    destruct (is_JSONDecodeError e); reflexivity].
  destruct data; reflexivity.
Qed.

(** C3, as stated, fails in two places.  A response with an empty body
    cannot be parsed, yet the result is the lookup-failed text, not the
    invalid-response text; and a response that is valid JSON but not an
    object (here an empty array) gives no result at all: the
    [AttributeError] of [data.get] leaves the function. *)
Lemma get_geolocation_counterexample :
  ~ (forall (w : world) (public_ip : string) (st : state)
       (fetched : option string) (st1 : state),
       public_ip <> CONNECTION_FAILED ->
       fetch_data_with_retry w GEOLOCATION_SERVICE_URL st = (Ok fetched, st1) ->
       get_geolocation w public_ip st
       = (Ok (geolocation_as_specified w fetched), st1))
  /\ fst (get_geolocation empty_bodies "203.0.113.5" init_state)
     = Ok LOOKUP_FAILED
  /\ geolocation_as_specified empty_bodies (Some "") = INVALID_RESPONSE
  /\ fst (get_geolocation (location_answers "[]") "203.0.113.5" init_state)
     = Raise (mkExn AttributeError "'list' object has no attribute 'get'")
  /\ geolocation_as_specified (location_answers "[]") (Some "[]")
     = INVALID_RESPONSE.
Proof.
  split; [|repeat split; reflexivity].
  intros H.
  assert (Hip : "203.0.113.5" <> CONNECTION_FAILED) by discriminate.
  specialize (H empty_bodies "203.0.113.5" init_state (Some "")
                (emit (EUrlopen GEOLOCATION_SERVICE_URL 5) init_state)
                Hip eq_refl).
  vm_compute in H. discriminate H.
Qed.

(** C3, amended. For a public IP other than the failure text, and whatever
    the fetch of the location service returned:
    - a body that is not empty and that [json.loads] reads as an object
      gives ["<city>, <region>, <country>"], each field that the object
      lacks replaced by its own ["Unknown ..."] text (so the object with
      city Paris, region Ile-de-France and country FR gives
      ["Paris, Ile-de-France, FR"]);
    - a body that is not empty and on which [json.loads] raises
      [JSONDecodeError] gives the invalid-response text;
    - an exhausted fetch, and an empty body, give the lookup-failed text.
    Bodies that are valid JSON but not an object are left out. *)
Theorem get_geolocation_result (w : world) (public_ip : string) (st : state)
    (fetched : option string) (st1 : state) :
  public_ip <> CONNECTION_FAILED ->
  fetch_data_with_retry w GEOLOCATION_SERVICE_URL st = (Ok fetched, st1) ->
  (forall text items,
     fetched = Some text -> text <> "" ->
     json_loads w text = Ok (PDict items) ->
     get_geolocation w public_ip st
     = (Ok (format_value w (dict_get items "city" (PStr "Unknown City"))
            ++ ", "
            ++ format_value w (dict_get items "region" (PStr "Unknown Region"))
            ++ ", "
            ++ format_value w (dict_get items "country" (PStr "Unknown Country"))),
        st1))
  /\ (forall text,
        fetched = Some text -> text <> "" ->
        json_loads w text
        = Ok (PDict [("city", PStr "Paris"); ("region", PStr "Ile-de-France");
                     ("country", PStr "FR")]) ->
        get_geolocation w public_ip st = (Ok "Paris, Ile-de-France, FR", st1))
  /\ (forall text e,
        fetched = Some text -> text <> "" ->
        json_loads w text = Raise e -> is_JSONDecodeError e = true ->
        get_geolocation w public_ip st = (Ok INVALID_RESPONSE, st1))
  /\ (fetched = None \/ fetched = Some "" ->
      get_geolocation w public_ip st = (Ok LOOKUP_FAILED, st1)).
Proof.
  intros Hip H.
  rewrite (get_geolocation_of_fetch w public_ip st fetched st1 Hip H).
  repeat split.
  - intros text items -> Hne Hjson.
    rewrite (truthy_true text Hne), Hjson. reflexivity.
  - intros text -> Hne Hjson.
    rewrite (truthy_true text Hne), Hjson. reflexivity.
  - intros text e -> Hne Hjson He.
    rewrite (truthy_true text Hne), Hjson, He. reflexivity.
  - intros [-> | ->]; reflexivity.
Qed.

Lemma get_geolocation_result_witness :
  get_geolocation online "203.0.113.5" init_state
  = (Ok "Paris, Ile-de-France, FR",
     emit (EUrlopen GEOLOCATION_SERVICE_URL 5) init_state)
  /\ get_geolocation (location_answers "{city: Paris}") "203.0.113.5" init_state
     = (Ok INVALID_RESPONSE,
        emit (EUrlopen GEOLOCATION_SERVICE_URL 5) init_state)
  /\ get_geolocation offline "203.0.113.5" init_state
     = (Ok LOOKUP_FAILED,
        snd (fetch_data_with_retry offline GEOLOCATION_SERVICE_URL init_state)).
Proof.
  assert (Hip : "203.0.113.5" <> CONNECTION_FAILED) by discriminate.
  split; [|split].
  - assert (Hfetch :
      fetch_data_with_retry online GEOLOCATION_SERVICE_URL init_state
      = (Ok (Some sample_location),
         emit (EUrlopen GEOLOCATION_SERVICE_URL 5) init_state))
      by reflexivity.
    assert (Hne : sample_location <> "") by discriminate.
    assert (Hjson :
      json_loads online sample_location
      = Ok (PDict [("city", PStr "Paris"); ("region", PStr "Ile-de-France");
                   ("country", PStr "FR")])) by reflexivity.
    exact (proj1 (proj2 (get_geolocation_result online "203.0.113.5"
                           init_state _ _ Hip Hfetch))
             sample_location eq_refl Hne Hjson).
  - assert (Hfetch :
      fetch_data_with_retry (location_answers "{city: Paris}")
        GEOLOCATION_SERVICE_URL init_state
      = (Ok (Some "{city: Paris}"),
         emit (EUrlopen GEOLOCATION_SERVICE_URL 5) init_state))
      by reflexivity.
    assert (Hne : "{city: Paris}" <> "") by discriminate.
    assert (Hjson :
      json_loads (location_answers "{city: Paris}") "{city: Paris}"
      = Raise (mkExn JSONDecodeError "Expecting value")) by reflexivity.
    exact (proj1 (proj2 (proj2 (get_geolocation_result
                                  (location_answers "{city: Paris}")
                                  "203.0.113.5" init_state _ _ Hip Hfetch)))
             "{city: Paris}" _ eq_refl Hne Hjson eq_refl).
  - assert (Hfetch :
      fetch_data_with_retry offline GEOLOCATION_SERVICE_URL init_state
      = (Ok None,
         snd (fetch_data_with_retry offline GEOLOCATION_SERVICE_URL init_state)))
      by reflexivity.
    exact (proj2 (proj2 (proj2 (get_geolocation_result offline "203.0.113.5"
                                  init_state _ _ Hip Hfetch)))
             (or_introl eq_refl)).
Defined.

(** C9. The two lookups test the truth value of what the fetch returned,
    not whether it returned.  What the fetch returned is false exactly when
    it is [None] or the empty body, and then [get_public_ip] returns
    ["N/A (Connection Failed)"] and [get_geolocation] returns
    ["N/A (Location Lookup Failed)"]: a request answered with an empty body
    gives the very values that are returned when every attempt has failed. *)
Theorem empty_body_counts_as_failure (w : world) (public_ip : string)
    (st : state) (fetched : option string) (st1 : state) :
  public_ip <> CONNECTION_FAILED ->
  truthy_opt fetched = false ->
  (fetched = Some "" \/ fetched = None)
  /\ (fetch_data_with_retry w PUBLIC_IP_SERVICE_URL st = (Ok fetched, st1) ->
      get_public_ip w st = (Ok CONNECTION_FAILED, st1))
  /\ (fetch_data_with_retry w GEOLOCATION_SERVICE_URL st = (Ok fetched, st1) ->
      get_geolocation w public_ip st = (Ok LOOKUP_FAILED, st1))
  /\ (urlopen_out w (trace st) PUBLIC_IP_SERVICE_URL 5 = Ok "" ->
      get_public_ip w st
      = (Ok CONNECTION_FAILED, emit (EUrlopen PUBLIC_IP_SERVICE_URL 5) st))
  /\ (urlopen_out w (trace st) GEOLOCATION_SERVICE_URL 5 = Ok "" ->
      get_geolocation w public_ip st
      = (Ok LOOKUP_FAILED, emit (EUrlopen GEOLOCATION_SERVICE_URL 5) st)).
Proof.
  intros Hip Hfalse. apply truthy_opt_false in Hfalse.
  assert (Hcases : fetched = Some "" \/ fetched = None) by tauto.
  split; [exact Hcases|]. repeat split.
  - intros H. rewrite (get_public_ip_of_fetch w st fetched st1 H).
    destruct Hcases as [-> | ->]; reflexivity.
  - intros H. rewrite (get_geolocation_of_fetch w public_ip st fetched st1 Hip H).
    destruct Hcases as [-> | ->]; reflexivity.
  - intros H.
    apply (fetch_data_with_retry_answered w PUBLIC_IP_SERVICE_URL st "") in H.
    rewrite (get_public_ip_of_fetch w st _ _ H). reflexivity.
  - intros H.
    apply (fetch_data_with_retry_answered w GEOLOCATION_SERVICE_URL st "") in H.
    rewrite (get_geolocation_of_fetch w public_ip st _ _ Hip H). reflexivity.
Qed.

Lemma empty_body_counts_as_failure_witness :
  get_public_ip empty_bodies init_state
  = (Ok CONNECTION_FAILED, emit (EUrlopen PUBLIC_IP_SERVICE_URL 5) init_state)
  /\ get_geolocation empty_bodies "203.0.113.5" init_state
     = (Ok LOOKUP_FAILED, emit (EUrlopen GEOLOCATION_SERVICE_URL 5) init_state).
Proof.
  assert (Hip : "203.0.113.5" <> CONNECTION_FAILED) by discriminate.
  pose proof (empty_body_counts_as_failure empty_bodies "203.0.113.5"
                init_state (Some "") init_state Hip eq_refl)
    as (_ & _ & _ & Hwan & Hgeo).
  split; [apply Hwan | apply Hgeo]; reflexivity.
Defined.

(** ** get_local_info *)

(** Case analysis on every answer of the world that [get_local_info]
    consults. *)
Ltac local_info_cases :=
  unfold get_local_info, try_except, try_finally, bind, gethostname,
    socket_dgram, connect, getsockname, gethostbyname, close, call, eprint,
    ret;
  repeat match goal with
         | |- context [match ?x with _ => _ end] =>
             match x with
             | gethostname_out _ _ => destruct x as [?|?] eqn:?
             | socket_out _ _ => destruct x as [?|?] eqn:?
             | connect_out _ _ _ _ => destruct x as [?|?] eqn:?
             | getsockname_out _ _ => destruct x as [?|?] eqn:?
             | gethostbyname_out _ _ _ => destruct x as [?|?] eqn:?
             | close_out _ _ => destruct x as [?|?] eqn:?
             | is_socket_error _ => destruct x eqn:?
             end
         | |- _ => progress cbn [select_handler is_Exception raise fst snd]
         end.

(** After the case analysis: the final state is the initial one extended by
    the calls made. *)
Ltac local_info_state :=
  unfold raise, emit, set_sockets, extend;
  cbn [trace captured terminal_output open_sockets Nat.pred];
  rewrite <- ?app_assoc; cbn [app].

(** [get_local_info] calls [socket.gethostname()] first and exactly once,
    makes only socket calls and reports on stderr after it, and leaves the
    capture buffer, [sys.stdout] and the number of open sockets as they
    were, whether it returns or raises. *)
Lemma get_local_info_run (w : world) (st : state) :
  exists r evs,
    get_local_info w st = (r, extend (EGetHostName :: evs) st)
    /\ Forall local_event evs.
Proof.
  local_info_cases; try congruence; local_info_state.
  all: eexists _, _; split; [reflexivity | repeat constructor].
Qed.

(** The outcomes of [get_local_info]: a pair as described by
    [local_info_pair], or an exception that is not a [socket.error] and that
    [gethostname], [socket], [gethostbyname] or [close] raised. *)
Lemma get_local_info_outcome (w : world) (st : state) :
  exists r st',
    get_local_info w st = (r, st')
    /\ (forall pair, r = Ok pair -> local_info_pair w st pair)
    /\ (forall e, r = Raise e ->
          is_socket_error e = false
          /\ ((exists h, gethostname_out w h = Raise e)
              \/ (exists h, socket_out w h = Raise e)
              \/ (exists h name, gethostbyname_out w h name = Raise e)
              \/ (exists h, close_out w h = Raise e))).
Proof.
  unfold local_info_pair.
  local_info_cases; try congruence; unfold raise.
  all: eexists _, _; split; [reflexivity|].
  all: split; [intros pair Hpair | intros e' He'];
    inversion Hpair || inversion He'; subst; cbn [fst snd].
  all: repeat match goal with p : (string * Z)%type |- _ => destruct p end;
    cbn [fst snd] in *.
  all: try (split; [reflexivity|]); try (split; [assumption|]); eauto 7.
Qed.

(** [s.close()] is called exactly once when the socket was created, on
    every path, and not at all otherwise. *)
Lemma get_local_info_closes (w : world) (st : state) :
  exists r evs,
    get_local_info w st = (r, extend evs st)
    /\ closes evs = if socket_created w st then 1%nat else 0%nat.
Proof.
  unfold socket_created.
  change (trace st ++ [EGetHostName])%list with (trace (emit EGetHostName st)).
  local_info_cases; try congruence; local_info_state.
  all: eexists _, _; split; reflexivity.
Qed.

(** What [get_local_info] guarantees.  On every path, returning or raising,
    it leaves as many sockets open as it found: it closes the datagram socket
    exactly once if it created it.  And when [gethostname], [socket],
    [gethostbyname] and [close] raise nothing but [socket.error], it returns
    a pair of strings: ["N/A"] twice when the host name could not be read,
    otherwise the host name with either an address or ["N/A"]. *)
Theorem get_local_info_degrades (w : world) (st : state) :
  (exists r st' evs,
     get_local_info w st = (r, st')
     /\ st' = extend evs st
     /\ open_sockets st' = open_sockets st
     /\ closes evs = if socket_created w st then 1%nat else 0%nat)
  /\ (socket_errors_only w ->
      exists pair st',
        get_local_info w st = (Ok pair, st') /\ local_info_pair w st pair).
Proof.
  split.
  - destruct (get_local_info_closes w st) as (r & evs & E & Hc).
    exists r, (extend evs st), evs. repeat split; assumption.
  - intros (Hname & Hsock & Hresolve & Hclose).
    destruct (get_local_info_outcome w st) as (r & st' & E & Hok & Hraise).
    destruct r as [pair|e].
    + exists pair, st'. split; [exact E | apply Hok; reflexivity].
    + exfalso. destruct (Hraise e eq_refl) as (Hne & Hwho).
      assert (Hyes : is_socket_error e = true).
      { destruct Hwho as [(h & Hh) | [(h & Hh) | [(h & name & Hh) | (h & Hh)]]].
        - specialize (Hname h). rewrite Hh in Hname. exact Hname.
        - specialize (Hsock h). rewrite Hh in Hsock. exact Hsock.
        - specialize (Hresolve h name). rewrite Hh in Hresolve. exact Hresolve.
        - specialize (Hclose h). rewrite Hh in Hclose. exact Hclose. }
      congruence.
Qed.

Lemma get_local_info_degrades_witness :
  socket_errors_only unresolvable_hostname
  /\ exists pair st',
       get_local_info unresolvable_hostname init_state = (Ok pair, st')
       /\ local_info_pair unresolvable_hostname init_state pair.
Proof.
  assert (Hw : socket_errors_only unresolvable_hostname).
  { repeat split; intros; cbn; reflexivity. }
  split; [exact Hw|].
  exact (proj2 (get_local_info_degrades unresolvable_hostname init_state) Hw).
Defined.

(** C5 fails on the code.  The probe cannot connect, so the fallback
    [socket.gethostbyname(hostname)] runs, outside the inner [try]; the host
    name has a label of 64 characters, the call raises a [UnicodeError], and
    the only handler left, [except socket.error], does not take it.  The
    [finally] clause closes the socket (that part of the claim holds) and the
    exception leaves [get_local_info]: no pair is returned.  [main] has no
    handler either, so the program ends in its first run with exit status 1
    and posts nothing. *)
Theorem unencodable_hostname_escapes :
  String.length long_label = 64%nat
  /\ gethostname_out unencodable_hostname [] = Ok long_label
  /\ get_local_info unencodable_hostname init_state
     = (Raise (mkExn OtherException
                 "encoding with 'idna' codec failed (UnicodeError: label too long)"),
        extend [EGetHostName; ESocket; EConnect "8.8.8.8" 1;
                EGetHostByName long_label; EClose] init_state)
  /\ is_socket_error
       (mkExn OtherException
          "encoding with 'idna' codec failed (UnicodeError: label too long)")
     = false
  /\ ~ (exists pair st',
          get_local_info unencodable_hostname init_state = (Ok pair, st'))
  /\ open_sockets (snd (get_local_info unencodable_hostname init_state))
     = open_sockets init_state
  /\ exit_status (fst (run unencodable_hostname true)) = 1
  /\ posts (trace (snd (run unencodable_hostname true))) = []
  /\ main_runs (trace (snd (run unencodable_hostname true))) = 1%nat.
Proof.
  repeat split; try (vm_compute; reflexivity).
  intros (pair & st' & E). vm_compute in E. discriminate E.
Qed.

(** ** main *)

Lemma bind_assoc {A B C} (m : M A) (f : A -> M B) (g : B -> M C) (st : state) :
  bind (bind m f) g st = bind m (fun a => bind (f a) g) st.
Proof. unfold bind. destruct (m st) as [[a|e] st1]; reflexivity. Qed.

Lemma bind_ext {A B} (m : M A) (f g : A -> M B) (st : state) :
  (forall a st1, f a st1 = g a st1) -> bind m f st = bind m g st.
Proof. intros H. unfold bind. destruct (m st) as [[a|e] st1]; auto. Qed.

(** [main] is its part up to the WAN lookup followed by the rest. *)
Lemma main_split (w : world) (st : state) :
  bind (main_until_wan w) (main_after_wan w) st = main w st.
Proof.
  unfold main_until_wan, main.
  repeat (rewrite bind_assoc; apply bind_ext; intros ? ?; cbv beta).
  reflexivity.
Qed.

Lemma get_public_ip_run (w : world) (st : state) :
  exists ip evs,
    get_public_ip w st = (Ok ip, extend evs st)
    /\ Forall (fetch_event PUBLIC_IP_SERVICE_URL) evs.
Proof.
  destruct (fetch_data_with_retry_run w PUBLIC_IP_SERVICE_URL st)
    as (o & evs & E & Hevs).
  rewrite (get_public_ip_of_fetch w st o _ E).
  eexists _, evs. split; [reflexivity | exact Hevs].
Qed.

Lemma get_geolocation_run (w : world) (public_ip : string) (st : state) :
  exists r evs,
    get_geolocation w public_ip st = (r, extend evs st)
    /\ Forall (fetch_event GEOLOCATION_SERVICE_URL) evs.
Proof.
  destruct (String.eqb_spec public_ip CONNECTION_FAILED) as [->|Hip].
  - exists (Ok REQUIRES_PUBLIC_IP), []. rewrite extend_nil.
    split; [reflexivity | constructor].
  - destruct (fetch_data_with_retry_run w GEOLOCATION_SERVICE_URL st)
      as (o & evs & E & Hevs).
    rewrite (get_geolocation_of_fetch w public_ip st o _ Hip E).
    destruct o as [text|]; [destruct (truthy text)|].
    2, 3: eexists _, evs; split; [reflexivity | exact Hevs].
    destruct (json_loads w text) as [data|e];
      [destruct data | destruct (is_JSONDecodeError e)];
      eexists _, evs; (split; [reflexivity | exact Hevs]).
Qed.

Lemma no_geo_fetches (evs : list event) :
  Forall (fun e => is_geo_fetch e = false) evs -> geo_fetches evs = 0%nat.
Proof.
  unfold geo_fetches. induction 1 as [|e evs He _ IH]; [reflexivity|].
  cbn [filter]. rewrite He. exact IH.
Qed.

Lemma no_attempts (evs : list event) :
  Forall (fun e => is_attempt e = false) evs -> attempts_made evs = 0%nat.
Proof.
  unfold attempts_made. induction 1 as [|e evs He _ IH]; [reflexivity|].
  cbn [filter]. rewrite He. exact IH.
Qed.

(** Up to the WAN lookup, [main] sends nothing to the location service. *)
Lemma main_until_wan_no_geo (w : world) :
  respects (appends (fun e => is_geo_fetch e = false)) (main_until_wan w).
Proof.
  unfold main_until_wan.
  repeat (apply respects_bind;
          [apply appends_trans
          | apply print_appends; reflexivity
          | intros _]).
  apply respects_bind; [apply appends_trans | | intros names].
  - intros st r st' H.
    destruct (get_local_info_run w st) as (r' & evs & E & Hevs).
    rewrite E in H. inversion H; subst.
    exists (EGetHostName :: evs). split; [reflexivity|].
    constructor; [reflexivity|].
    eapply Forall_impl; [|exact Hevs]. intros [] He; solve [reflexivity | destruct He].
  - repeat (apply respects_bind;
            [apply appends_trans
            | apply print_appends; reflexivity
            | intros _]).
    intros st r st' H.
    destruct (get_public_ip_run w st) as (ip & evs & E & Hevs).
    rewrite E in H. inversion H; subst.
    exists evs. split; [reflexivity|].
    eapply Forall_impl; [|exact Hevs].
    intros [] He; try solve [reflexivity | destruct He].
    destruct He as [-> _]. reflexivity.
Qed.

Lemma print_returns (P : event -> Prop) (text : string) (st : state) :
  (forall t, P (EConsole t)) ->
  exists st', print text st = (Ok tt, st') /\ appends P st st'.
Proof.
  intros HP. destruct (print text st) as [r st'] eqn:E.
  assert (r = Ok tt) as ->
    by (unfold print in E; destruct (captured st); congruence).
  exists st'. split; [reflexivity|].
  eapply print_appends; eassumption.
Qed.

(** After a failed WAN lookup, [main] makes no request at all and ends
    normally. *)
Lemma main_after_wan_failed (w : world) (st : state) :
  exists st',
    main_after_wan w CONNECTION_FAILED st = (Ok tt, st')
    /\ appends (fun e => is_attempt e = false) st st'.
Proof.
  unfold main_after_wan.
  change (negb (CONNECTION_FAILED =? CONNECTION_FAILED)%string) with false.
  cbv iota.
  set (P := fun e => is_attempt e = false).
  assert (HP : forall t, P (EConsole t)) by reflexivity.
  destruct (print_returns P ("Public IP Address (WAN): " ++ CONNECTION_FAILED)
              st HP) as (st1 & E1 & A1).
  rewrite (bind_ok _ _ _ _ _ E1).
  destruct (print_returns P
              "Estimated Location:      N/A (Failed to retrieve Public IP)"
              st1 HP) as (st2 & E2 & A2).
  rewrite (bind_ok _ _ _ _ _ E2).
  destruct (print_returns P RULE st2 HP) as (st3 & E3 & A3).
  rewrite (bind_ok _ _ _ _ _ E3).
  destruct (print_returns P (LF ++ "[Image of network topology]") st3 HP)
    as (st4 & E4 & A4).
  exists st4. split; [exact E4|].
  eauto using appends_trans.
Qed.

(** C2. [get_geolocation] called with the failure text of the WAN lookup
    returns ["N/A (Requires Public IP)"] without touching the state, so
    without any call.  And in a run of [main] whose WAN lookup returned the
    failure text, what is left of [main] after the lookup is four calls of
    [print], the second with the fixed line
    ["N/A (Failed to retrieve Public IP)"]: [get_geolocation] is not called.
    [main] ends normally, no request to the location service is among the
    calls of the run, and no request at all is made after the lookup. *)
Theorem wan_failure_skips_geolocation (w : world) (st st1 : state) :
  main_until_wan w st = (Ok CONNECTION_FAILED, st1) ->
  (forall st', get_geolocation w CONNECTION_FAILED st'
               = (Ok REQUIRES_PUBLIC_IP, st'))
  /\ main w st
     = (print ("Public IP Address (WAN): " ++ CONNECTION_FAILED);;
        print "Estimated Location:      N/A (Failed to retrieve Public IP)";;
        print RULE;;
        print (LF ++ "[Image of network topology]")) st1
  /\ exists st2 evs evs',
       main w st = (Ok tt, st2)
       /\ trace st2 = (trace st ++ evs)%list
       /\ geo_fetches evs = 0%nat
       /\ trace st2 = (trace st1 ++ evs')%list
       /\ attempts_made evs' = 0%nat.
Proof.
  intros Hwan. split; [reflexivity|].
  split.
  { rewrite <- main_split. rewrite (bind_ok _ _ _ _ _ Hwan). reflexivity. }
  destruct (main_until_wan_no_geo w st _ _ Hwan) as (evs1 & T1 & G1).
  destruct (main_after_wan_failed w st1) as (st2 & Hrest & (evs2 & T2 & A2)).
  exists st2, (evs1 ++ evs2)%list, evs2.
  split; [|split; [|split; [|split]]].
  - rewrite <- main_split. rewrite (bind_ok _ _ _ _ _ Hwan). exact Hrest.
  - rewrite T2, T1, app_assoc. reflexivity.
  - apply no_geo_fetches, Forall_app. split; [exact G1|].
    eapply Forall_impl; [|exact A2].
    intros [] He; solve [reflexivity | discriminate He].
  - exact T2.
  - apply no_attempts, A2.
Qed.

Lemma wan_failure_skips_geolocation_witness :
  main_until_wan offline init_state
  = (Ok CONNECTION_FAILED, snd (main_until_wan offline init_state))
  /\ get_geolocation offline CONNECTION_FAILED init_state
     = (Ok REQUIRES_PUBLIC_IP, init_state)
  /\ exists st2 evs evs',
       main offline init_state = (Ok tt, st2)
       /\ trace st2 = (trace init_state ++ evs)%list
       /\ geo_fetches evs = 0%nat
       /\ trace st2 = (trace (snd (main_until_wan offline init_state)) ++ evs')%list
       /\ attempts_made evs' = 0%nat.
Proof.
  assert (H : main_until_wan offline init_state
              = (Ok CONNECTION_FAILED, snd (main_until_wan offline init_state)))
    by (vm_compute; reflexivity).
  destruct (wan_failure_skips_geolocation offline init_state _ H)
    as (Hshort & _ & Hmain).
  split; [exact H|]. split; [apply Hshort | exact Hmain].
Defined.

(** One run of [main] while [sys.stdout] is captured: it calls
    [socket.gethostname()] first and only once, writes nothing to the real
    stdout, posts nothing, and when it ends normally what it has added to
    the capture buffer is one full report. *)
Lemma main_captured_run (w : world) (st : state) :
  captured st = true ->
  exists r evs out,
    main w st = (r, grow (EGetHostName :: evs) out st)
    /\ Forall main_event evs
    /\ (r = Ok tt ->
        exists hostname local_ip public_ip location,
          out = report_text hostname local_ip public_ip location).
Proof.
  intros Hcap.
  assert (Hlocal : forall evs, Forall local_event evs -> Forall main_event evs).
  { intros evs. apply Forall_impl. intros [] He; solve [exact I | destruct He]. }
  assert (Hfetch : forall url evs,
             Forall (fetch_event url) evs -> Forall main_event evs).
  { intros url evs. apply Forall_impl. intros [] He; solve [exact I | destruct He]. }
  destruct (main w st) as [r st'] eqn:E.
  rewrite <- (grow_nil st) in E at 1. unfold main in E.
  rewrite !bind_print_grow in E by exact Hcap.
  match type of E with bind _ _ ?c = _ =>
    destruct (get_local_info_run w c) as (r1 & evs1 & E1 & F1) end.
  rewrite extend_grow in E1. cbn [app] in E1.
  destruct r1 as [names|e].
  2: { rewrite (bind_raise _ _ _ _ _ E1) in E. inversion E; subst.
       eexists _, evs1, _. split; [reflexivity|].
       split; [auto | discriminate]. }
  rewrite (bind_ok _ _ _ _ _ E1) in E.
  rewrite !bind_print_grow in E by exact Hcap.
  match type of E with bind _ _ ?c = _ =>
    destruct (get_public_ip_run w c) as (ip & evs2 & E2 & F2) end.
  rewrite extend_grow in E2. cbn [app] in E2.
  rewrite (bind_ok _ _ _ _ _ E2) in E.
  rewrite bind_print_grow in E by exact Hcap.
  destruct (negb (ip =? CONNECTION_FAILED)%string); cbv iota in E.
  - match type of E with bind _ _ ?c = _ =>
      destruct (get_geolocation_run w ip c) as (r3 & evs3 & E3 & F3) end.
    rewrite extend_grow in E3. cbn [app] in E3.
    destruct r3 as [geolocation|e].
    + pose proof (bind_ok _ (fun g => print ("Estimated Location:      " ++ g))
                    _ _ _ E3) as Hline.
      cbv beta in Hline. rewrite print_grow in Hline by exact Hcap.
      rewrite (bind_ok _ _ _ _ _ Hline) in E.
      rewrite !bind_print_grow in E by exact Hcap.
      rewrite print_grow in E by exact Hcap.
      inversion E; subst.
      eexists _, ((evs1 ++ evs2) ++ evs3)%list, _. split; [reflexivity|].
      split; [repeat (apply Forall_app; split); eauto|].
      intros _. exists (fst names), (snd names), ip, geolocation. reflexivity.
    + pose proof (bind_raise _ (fun g => print ("Estimated Location:      " ++ g))
                    _ _ _ E3) as Hline.
      rewrite (bind_raise _ _ _ _ _ Hline) in E. inversion E; subst.
      eexists _, ((evs1 ++ evs2) ++ evs3)%list, _. split; [reflexivity|].
      split; [|discriminate].
      repeat (apply Forall_app; split); eauto.
  - rewrite !bind_print_grow in E by exact Hcap.
    rewrite print_grow in E by exact Hcap.
    inversion E; subst.
    eexists _, (evs1 ++ evs2)%list, _. split; [reflexivity|].
    split; [repeat (apply Forall_app; split); eauto|].
    intros _.
    exists (fst names), (snd names), ip, "N/A (Failed to retrieve Public IP)".
    reflexivity.
Qed.

(** ** The module body *)

(** The state in which the first run of [main] starts when the file is
    imported: a fresh capture buffer, [sys.stdout] pointing to it. *)
Lemma run_imported (w : world) :
  run w false
  = (main w;;
     (fun st => (Ok tt, set_captured false st));;
     output <- (fun st => (Ok (terminal_output st), st));;
     send_to_webhook w output;;
     ret tt)
      (set_captured true (set_buffer "" init_state)).
Proof. reflexivity. Qed.

Lemma run_executed (w : world) :
  run w true
  = (main w;;
     main w;;
     (fun st => (Ok tt, set_captured false st));;
     output <- (fun st => (Ok (terminal_output st), st));;
     send_to_webhook w output;;
     ret tt)
      (emit ELogging (set_captured true (set_buffer "" init_state))).
Proof. reflexivity. Qed.

(** What is left of the module body after the runs of [main]. *)
Lemma deliver_run (w : world) (st : state) :
  ((fun st => (Ok tt, set_captured false st));;
   output <- (fun st => (Ok (terminal_output st), st));;
   send_to_webhook w output;;
   ret tt) st
  = (Ok tt,
     extend [EPost WEBHOOK_URL [("content", fenced (terminal_output st))] 3]
       (set_captured false st)).
Proof.
  unfold bind at 1. unfold bind at 1. cbn [terminal_output set_captured].
  unfold bind. rewrite send_to_webhook_run. reflexivity.
Qed.

Lemma main_event_filters (evs : list event) :
  Forall main_event evs ->
  filter is_gethostname evs = []
  /\ filter is_post evs = []
  /\ filter is_console evs = [].
Proof.
  induction 1 as [|e evs He _ (IH1 & IH2 & IH3)]; [repeat split|].
  destruct e; try destruct He; cbn [filter is_gethostname is_post is_console];
    repeat split; assumption.
Qed.

(** The whole run when the file is imported and [main] returns. *)
Lemma run_imported_completed (w : world) (st : state) :
  run w false = (Ok tt, st) ->
  exists report evs,
    is_report report
    /\ Forall main_event evs
    /\ st = {| trace := EGetHostName :: evs ++ [delivery report];
               captured := false;
               terminal_output := report;
               open_sockets := 0 |}.
Proof.
  rewrite run_imported. intros H.
  destruct (main_captured_run w (set_captured true (set_buffer "" init_state))
              eq_refl) as (r1 & evs1 & out1 & E1 & F1 & R1).
  destruct r1 as [[]|e];
    [rewrite (bind_ok _ _ _ _ _ E1) in H
    | rewrite (bind_raise _ _ _ _ _ E1) in H; discriminate H].
  rewrite deliver_run in H. inversion H; subst. clear H.
  exists out1, evs1. split; [apply R1; reflexivity|]. split; [exact F1|].
  reflexivity.
Qed.

(** The whole run when the file is executed and both runs of [main]
    return. *)
Lemma run_executed_completed (w : world) (st : state) :
  run w true = (Ok tt, st) ->
  exists report1 report2 evs1 evs2,
    is_report report1 /\ is_report report2
    /\ Forall main_event evs1 /\ Forall main_event evs2
    /\ main w (emit ELogging (set_captured true (set_buffer "" init_state)))
       = (Ok tt,
          grow (EGetHostName :: evs1) report1
            (emit ELogging (set_captured true (set_buffer "" init_state))))
    /\ main w (grow (EGetHostName :: evs1) report1
                 (emit ELogging (set_captured true (set_buffer "" init_state))))
       = (Ok tt,
          grow (EGetHostName :: evs2) report2
            (grow (EGetHostName :: evs1) report1
               (emit ELogging (set_captured true (set_buffer "" init_state)))))
    /\ st = {| trace :=
                 ELogging :: EGetHostName :: evs1
                 ++ EGetHostName :: evs2 ++ [delivery (report1 ++ report2)];
               captured := false;
               terminal_output := report1 ++ report2;
               open_sockets := 0 |}.
Proof.
  rewrite run_executed. intros H.
  set (c0 := emit ELogging (set_captured true (set_buffer "" init_state))) in *.
  destruct (main_captured_run w c0 eq_refl)
    as (r1 & evs1 & out1 & E1 & F1 & R1).
  destruct r1 as [[]|e];
    [rewrite (bind_ok _ _ _ _ _ E1) in H
    | rewrite (bind_raise _ _ _ _ _ E1) in H; discriminate H].
  destruct (main_captured_run w (grow (EGetHostName :: evs1) out1 c0) eq_refl)
    as (r2 & evs2 & out2 & E2 & F2 & R2).
  destruct r2 as [[]|e];
    [rewrite (bind_ok _ _ _ _ _ E2) in H
    | rewrite (bind_raise _ _ _ _ _ E2) in H; discriminate H].
  rewrite deliver_run in H. inversion H; subst. clear H.
  exists out1, out2, evs1, evs2.
  split; [apply R1; reflexivity|]. split; [apply R2; reflexivity|].
  split; [exact F1|]. split; [exact F2|].
  split; [exact E1|]. split; [exact E2|].
  unfold extend, set_captured, grow, c0, emit, extend, delivery.
  cbn [trace captured terminal_output open_sockets set_buffer init_state app
       String.append].
  rewrite <- !app_assoc. reflexivity.
Qed.

(** ** Two runs in a stationary world *)

Lemma reshape_id (st : state) : reshape [] "" (fun n => n) st = st.
Proof.
  destruct st; unfold reshape; cbn. rewrite app_nil_r, append_nil_r.
  reflexivity.
Qed.

Lemma reshape_reshape (evs1 evs2 : list event) (out1 out2 : string)
    (f1 f2 : nat -> nat) (st : state) :
  reshape evs2 out2 f2 (reshape evs1 out1 f1 st)
  = reshape (evs1 ++ evs2) (out1 ++ out2) (fun n => f2 (f1 n)) st.
Proof. unfold reshape; cbn. rewrite app_assoc, append_assoc. reflexivity. Qed.

Lemma emit_reshape (e : event) (st : state) :
  emit e st = reshape [e] "" (fun n => n) st.
Proof. unfold emit, extend, reshape. rewrite append_nil_r. reflexivity. Qed.

Lemma uniform_ret {A} (a : A) : uniform (ret a).
Proof.
  exists (Ok a), [], "", (fun n => n). intros st _.
  rewrite reshape_id. reflexivity.
Qed.

Lemma uniform_raise {A} (e : exn) : uniform (@raise A e).
Proof.
  exists (Raise e), [], "", (fun n => n). intros st _.
  rewrite reshape_id. reflexivity.
Qed.

Lemma uniform_bind {A B} (m : M A) (f : A -> M B) :
  uniform m -> (forall a, uniform (f a)) -> uniform (bind m f).
Proof.
  intros (r1 & evs1 & out1 & f1 & H1) Hf. destruct r1 as [a|e].
  - destruct (Hf a) as (r2 & evs2 & out2 & f2 & H2).
    exists r2, (evs1 ++ evs2)%list, (out1 ++ out2), (fun n => f2 (f1 n)).
    intros st Hcap. unfold bind. rewrite (H1 st Hcap). cbv beta iota.
    rewrite (H2 (reshape evs1 out1 f1 st) Hcap), reshape_reshape. reflexivity.
  - exists (Raise e), evs1, out1, f1.
    intros st Hcap. unfold bind. rewrite (H1 st Hcap). reflexivity.
Qed.

Lemma uniform_select_handler {A}
    (clauses : list ((exn -> bool) * (exn -> M A))) (e : exn) :
  Forall (fun c => forall e', uniform (snd c e')) clauses ->
  uniform (select_handler clauses e).
Proof.
  induction 1 as [|[handles handler] rest Hc _ IH]; cbn [select_handler].
  - apply uniform_raise.
  - destruct (handles e); [apply Hc | apply IH].
Qed.

Lemma uniform_try_except {A} (body : M A)
    (clauses : list ((exn -> bool) * (exn -> M A))) :
  uniform body ->
  Forall (fun c => forall e, uniform (snd c e)) clauses ->
  uniform (try_except body clauses).
Proof.
  intros (r1 & evs1 & out1 & f1 & H1) Hc. destruct r1 as [a|e].
  - exists (Ok a), evs1, out1, f1.
    intros st Hcap. unfold try_except. rewrite (H1 st Hcap). reflexivity.
  - destruct (uniform_select_handler clauses e Hc)
      as (r2 & evs2 & out2 & f2 & H2).
    exists r2, (evs1 ++ evs2)%list, (out1 ++ out2), (fun n => f2 (f1 n)).
    intros st Hcap. unfold try_except. rewrite (H1 st Hcap). cbv beta iota.
    rewrite (H2 (reshape evs1 out1 f1 st) Hcap), reshape_reshape. reflexivity.
Qed.

Lemma uniform_try_finally {A} (body : M A) (cleanup : M unit) :
  uniform body -> uniform cleanup -> uniform (try_finally body cleanup).
Proof.
  intros (r1 & evs1 & out1 & f1 & H1) (r2 & evs2 & out2 & f2 & H2).
  exists (match r2 with Ok _ => r1 | Raise e => Raise e end),
    (evs1 ++ evs2)%list, (out1 ++ out2), (fun n => f2 (f1 n)).
  intros st Hcap. unfold try_finally. rewrite (H1 st Hcap). cbv beta iota.
  rewrite (H2 (reshape evs1 out1 f1 st) Hcap), reshape_reshape. destruct r2; reflexivity.
Qed.

Lemma uniform_call {A} (e : event) (answer : list event -> result A) :
  (forall h h', answer h = answer h') -> uniform (call e answer).
Proof.
  intros Hanswer. exists (answer []), [e], "", (fun n => n).
  intros st _. unfold call. rewrite (Hanswer (trace st) []), emit_reshape.
  reflexivity.
Qed.

Lemma uniform_print (text : string) : uniform (print text).
Proof.
  exists (Ok tt), [], (text ++ LF), (fun n => n).
  intros st Hcap. unfold print. rewrite Hcap.
  unfold set_buffer, reshape. rewrite app_nil_r. reflexivity.
Qed.

Lemma uniform_eprint (text : string) : uniform (eprint text).
Proof.
  eexists (Ok tt), [_], "", (fun n => n).
  intros st _. unfold eprint. rewrite emit_reshape. reflexivity.
Qed.

Lemma uniform_sleep (seconds : Z) : uniform (sleep seconds).
Proof.
  unfold sleep.
  destruct (seconds <? 0); [apply uniform_raise|].
  destruct (MAX_SLEEP <? seconds); [apply uniform_raise|].
  eexists (Ok tt), [_], "", (fun n => n).
  intros st _. rewrite emit_reshape. reflexivity.
Qed.

Section Stationary.

Variable w : world.
Hypothesis Hw : stationary w.

Lemma uniform_socket_dgram : uniform (socket_dgram w).
Proof.
  destruct Hw as (_ & Hsock & _).
  destruct (socket_out w []) as [u|e] eqn:E.
  - exists (Ok tt), [ESocket], "", S. intros st _. unfold socket_dgram.
    rewrite (Hsock (trace st) []), E, emit_reshape. reflexivity.
  - exists (Raise e), [ESocket], "", (fun n => n). intros st _.
    unfold socket_dgram.
    rewrite (Hsock (trace st) []), E, emit_reshape. reflexivity.
Qed.

Lemma uniform_close : uniform (close w).
Proof.
  destruct Hw as (_ & _ & _ & _ & _ & Hclose & _).
  exists (close_out w []), [EClose], "", Nat.pred. intros st _. unfold close.
  rewrite (Hclose (trace st) []), emit_reshape. reflexivity.
Qed.

Lemma uniform_loads (text : string) : uniform (loads w text).
Proof.
  exists (json_loads w text), [], "", (fun n => n). intros st _.
  rewrite reshape_id. reflexivity.
Qed.

Lemma uniform_py_get (data : pyval) (key : string) (default : pyval) :
  uniform (py_get data key default).
Proof. destruct data; first [apply uniform_ret | apply uniform_raise]. Qed.

(** One step of a proof that a computation is [uniform]. *)
Ltac uniform_step :=
  first
    [ apply uniform_ret
    | apply uniform_raise
    | apply uniform_print
    | apply uniform_eprint
    | apply uniform_sleep
    | apply uniform_socket_dgram
    | apply uniform_close
    | apply uniform_loads
    | apply uniform_py_get
    | apply uniform_call; intros; apply Hw
    | apply uniform_bind; [|intros ?]
    | apply uniform_try_except; [|repeat constructor; intros ?]
    | apply uniform_try_finally
    | match goal with
      | |- uniform (if ?b then _ else _) => destruct b
      | |- uniform (match ?x with _ => _ end) => destruct x
      | |- uniform (let _ := _ in _) => cbv zeta
      | |- uniform (snd _ _) => cbn [snd]
      end ].

Lemma uniform_get_local_info : uniform (get_local_info w).
Proof.
  unfold get_local_info, gethostname, connect, getsockname, gethostbyname.
  repeat uniform_step.
Qed.

Lemma uniform_fetch_loop (n : nat) (d : Z) (url : string)
    (attempts : list nat) :
  uniform (fetch_loop w n d url attempts).
Proof.
  induction attempts as [|attempt rest IH]; cbn [fetch_loop].
  - apply uniform_ret.
  - unfold urlopen. repeat uniform_step; exact IH.
Qed.

Lemma uniform_get_public_ip : uniform (get_public_ip w).
Proof.
  unfold get_public_ip, fetch_data_with_retry.
  apply uniform_bind; [apply uniform_fetch_loop | intros ?].
  repeat uniform_step.
Qed.

Lemma uniform_get_geolocation (public_ip : string) :
  uniform (get_geolocation w public_ip).
Proof.
  unfold get_geolocation, fetch_data_with_retry.
  destruct (public_ip =? CONNECTION_FAILED)%string; [apply uniform_ret|].
  apply uniform_bind; [apply uniform_fetch_loop | intros ?].
  repeat uniform_step.
Qed.

Lemma uniform_main : uniform (main w).
Proof.
  unfold main.
  repeat first
    [ apply uniform_get_local_info
    | apply uniform_get_public_ip
    | apply uniform_get_geolocation
    | uniform_step ].
Qed.

End Stationary.

Lemma main_runs_app (evs1 evs2 : list event) :
  main_runs (evs1 ++ evs2) = (main_runs evs1 + main_runs evs2)%nat.
Proof. unfold main_runs. rewrite filter_app, length_app. reflexivity. Qed.

Lemma main_event_no_runs (evs : list event) :
  Forall main_event evs -> main_runs evs = 0%nat.
Proof.
  intros H. unfold main_runs.
  destruct (main_event_filters evs H) as (-> & _). reflexivity.
Qed.

Lemma main_event_no_posts (evs : list event) :
  Forall main_event evs -> posts evs = [].
Proof. intros H. apply (main_event_filters evs H). Qed.



(** Importing the file always starts a run of [main]: whatever the world,
    [socket.gethostname()] is called, and nothing reaches the real stdout. *)
Lemma run_imported_acts (w : world) :
  exists r st evs,
    run w false = (r, st)
    /\ trace st = EGetHostName :: evs
    /\ filter is_console (trace st) = [].
Proof.
  rewrite run_imported.
  destruct (main_captured_run w (set_captured true (set_buffer "" init_state))
              eq_refl) as (r1 & evs1 & out1 & E1 & F1 & _).
  destruct (main_event_filters evs1 F1) as (_ & _ & Hconsole).
  destruct r1 as [[]|e].
  - rewrite (bind_ok _ _ _ _ _ E1), deliver_run.
    eexists _, _, _. split; [reflexivity|].
    cbn [trace extend set_captured grow set_buffer init_state app].
    split; [reflexivity|].
    cbn [filter is_console]. rewrite filter_app, Hconsole. reflexivity.
  - rewrite (bind_raise _ _ _ _ _ E1).
    eexists _, _, _. split; [reflexivity|].
    cbn [trace extend set_captured grow set_buffer init_state app].
    split; [reflexivity|].
    cbn [filter is_console]. exact Hconsole.
Qed.



(** ** Exit status *)

Lemma returns_bind {A B} (m : M A) (f : A -> M B) :
  returns m -> (forall a, returns (f a)) -> returns (bind m f).
Proof.
  intros Hm Hf st. destruct (Hm st) as (a & st1 & E).
  rewrite (bind_ok _ _ _ _ _ E). apply Hf.
Qed.

Lemma returns_print (text : string) : returns (print text).
Proof.
  intros st. unfold print. destruct (captured st); eexists _, _; reflexivity.
Qed.

Lemma returns_get_public_ip (w : world) : returns (get_public_ip w).
Proof.
  intros st. destruct (get_public_ip_run w st) as (ip & evs & E & _).
  eexists _, _. exact E.
Qed.

Lemma returns_get_local_info (w : world) :
  socket_errors_only w -> returns (get_local_info w).
Proof.
  intros (Hname & Hsock & Hresolve & Hclose) st.
  destruct (get_local_info_outcome w st) as (r & st' & E & _ & Hraise).
  destruct r as [pair|e]; [eexists _, _; exact E|].
  exfalso. destruct (Hraise e eq_refl) as (Hne & Hwho).
  assert (Hyes : is_socket_error e = true).
  { destruct Hwho as [(h & Hh) | [(h & Hh) | [(h & name & Hh) | (h & Hh)]]].
    - specialize (Hname h). rewrite Hh in Hname. exact Hname.
    - specialize (Hsock h). rewrite Hh in Hsock. exact Hsock.
    - specialize (Hresolve h name). rewrite Hh in Hresolve. exact Hresolve.
    - specialize (Hclose h). rewrite Hh in Hclose. exact Hclose. }
  congruence.
Qed.

Lemma returns_get_geolocation (w : world) (public_ip : string) :
  objects_or_decode_errors w -> returns (get_geolocation w public_ip).
Proof.
  intros Hjson st.
  destruct (String.eqb_spec public_ip CONNECTION_FAILED) as [->|Hip].
  - eexists _, _. reflexivity.
  - destruct (fetch_data_with_retry_run w GEOLOCATION_SERVICE_URL st)
      as (o & evs & E & _).
    rewrite (get_geolocation_of_fetch w public_ip st o _ Hip E).
    destruct o as [text|]; [destruct (truthy text)|];
      try (eexists _, _; reflexivity).
    specialize (Hjson text).
    destruct (json_loads w text) as [data|e];
      [destruct data; try contradiction | rewrite Hjson];
      eexists _, _; reflexivity.
Qed.

(** [main] returns when the socket calls raise nothing but [socket.error]
    and [json.loads] gives dicts or [JSONDecodeError]. *)
Lemma returns_main (w : world) :
  socket_errors_only w -> objects_or_decode_errors w -> returns (main w).
Proof.
  intros Hsock Hjson. unfold main.
  repeat first
    [ apply returns_print
    | apply returns_get_local_info; exact Hsock
    | apply returns_get_public_ip
    | apply returns_get_geolocation; exact Hjson
    | apply returns_bind; [|intros ?]
    | match goal with
      | |- returns (if ?b then _ else _) => destruct b
      end ].
Qed.

(** Under the same two conditions the program ends with exit status 0,
    whatever the network and the webhook do. *)
Lemma run_completes (w : world) (is_main : bool) :
  socket_errors_only w -> objects_or_decode_errors w ->
  exit_status (fst (run w is_main)) = 0.
Proof.
  intros Hsock Hjson.
  assert (Hmain := returns_main w Hsock Hjson).
  assert (H : returns (module_body w is_main)).
  { unfold module_body.
    repeat first
      [ exact Hmain
      | apply returns_bind; [|intros ?]
      | match goal with
        | |- returns (if ?b then _ else _) => destruct b
        | |- returns (send_to_webhook _ _) =>
            intros st; rewrite send_to_webhook_run; eexists _, _; reflexivity
        | |- returns _ => intros st; eexists _, _; reflexivity
        end ]. }
  unfold run. destruct (H init_state) as (a & st' & ->). reflexivity.
Qed.

(** C4 fails on the code.  The echo service answers with an address and the
    location service with a body that is valid JSON but not an object (an
    empty array): [data.get] raises [AttributeError], no handler catches it,
    the first run of [main] ends the program with exit status 1, and nothing
    is posted. *)
Theorem non_object_location_crashes :
  fst (run (location_answers "[]") true)
  = Raise (mkExn AttributeError "'list' object has no attribute 'get'")
  /\ exit_status (fst (run (location_answers "[]") true)) = 1
  /\ posts (trace (snd (run (location_answers "[]") true))) = []
  /\ main_runs (trace (snd (run (location_answers "[]") true))) = 1%nat
  /\ captured (snd (run (location_answers "[]") true)) = true.
Proof. repeat split; vm_compute; reflexivity. Qed.

(** * Further properties *)

(** ** The retry loop, call by call *)

Section FetchRun.

Variable w : world.

(** A failed attempt makes exactly the calls of [failed_attempt]. *)
Lemma fetch_loop_failed_calls (n : nat) (d : Z) (Hfit : delays_fit n d)
    (url : string) (attempt : nat) (rest : list nat) (st : state) (e : exn) :
  urlopen_out w (trace st) url 5 = Raise e ->
  fetch_loop w n d url (attempt :: rest) st
  = fetch_loop w n d url rest (extend (failed_attempt n d url attempt e) st).
Proof.
  intros Hfail.
  assert (Hcmp : (Z.of_nat attempt <? Z.of_nat n - 1) = (S attempt <? n)%nat).
  { destruct (Nat.ltb_spec (S attempt) n); [apply Z.ltb_lt | apply Z.ltb_ge]; lia. }
  cbn [fetch_loop]. unfold bind at 1. unfold try_except at 1.
  unfold bind at 1. unfold urlopen at 1. unfold call at 1. rewrite Hfail.
  cbn [select_handler]. rewrite Hcmp.
  unfold failed_attempt, failure_report.
  destruct (Nat.ltb_spec (S attempt) n) as [Hlt|Hge];
    destruct (is_URLError e); cbn [is_Exception];
    unfold bind, eprint, ret; cbn beta iota zeta;
    rewrite ?(sleep_ok _ _ (Hfit attempt Hlt));
    unfold emit; rewrite !extend_extend; cbn [app]; reflexivity.
Qed.

(** With delays that are accepted the loop always returns, and what it does
    is a [fetch_run]. *)
Lemma fetch_loop_run (n : nat) (d : Z) (Hfit : delays_fit n d) (url : string)
    (attempts : list nat) :
  forall st,
  exists o evs,
    fetch_loop w n d url attempts st = (Ok o, extend evs st)
    /\ fetch_run w n d url attempts (trace st) evs o.
Proof.
  induction attempts as [|attempt rest IH]; intros st.
  - exists None, []. rewrite extend_nil. split; [reflexivity | constructor].
  - destruct (urlopen_out w (trace st) url 5) as [body|e] eqn:E.
    + exists (Some body), [EUrlopen url 5]. split.
      * apply fetch_loop_answered, E.
      * constructor. exact E.
    + rewrite (fetch_loop_failed_calls n d Hfit url attempt rest st e E).
      destruct (IH (extend (failed_attempt n d url attempt e) st))
        as (o & evs & Hrun & Hspec).
      exists o, (failed_attempt n d url attempt e ++ evs)%list. split.
      * rewrite Hrun, extend_extend. reflexivity.
      * econstructor; eassumption.
Qed.

End FetchRun.

(** Inversion of a [fetch_run] over the three attempts of the script. *)
Ltac invert_fetch_run :=
  repeat match goal with
         | H : fetch_run _ _ _ _ (_ :: _) _ _ _ |- _ =>
             inversion H; subst; clear H
         | H : fetch_run _ _ _ _ [] _ _ _ |- _ =>
             inversion H; subst; clear H
         end.

Lemma fetch_data_with_retry_fetch_run (w : world) (url : string) (st : state) :
  exists o evs,
    fetch_data_with_retry w url st = (Ok o, extend evs st)
    /\ fetch_run w MAX_RETRIES INITIAL_DELAY url [0; 1; 2]%nat (trace st) evs o.
Proof.
  apply (fetch_loop_run w MAX_RETRIES INITIAL_DELAY script_delays_fit url
           (seq 0 MAX_RETRIES)).
Qed.

(** X1. Whatever the network does, [fetch_data_with_retry] returns (it never
    raises), makes at least one and at most [MAX_RETRIES] = 3 requests, all
    to the URL it was given and with a timeout of 5 seconds, sleeps at most
    3 seconds in total, and apart from these requests, sleeps and its lines
    on stderr changes nothing: the capture buffer is untouched. *)
Theorem fetch_data_with_retry_bounded (w : world) (url : string) (st : state) :
  exists o evs,
    fetch_data_with_retry w url st = (Ok o, extend evs st)
    /\ Forall (fetch_event url) evs
    /\ (1 <= attempts_made evs <= MAX_RETRIES)%nat
    /\ 0 <= slept evs <= 3
    /\ terminal_output (extend evs st) = terminal_output st.
Proof.
  destruct (fetch_data_with_retry_fetch_run w url st) as (o & evs & E & Hrun).
  exists o, evs. split; [exact E|].
  unfold MAX_RETRIES, INITIAL_DELAY in *. invert_fetch_run.
  all: cbn; repeat split; try lia; repeat constructor.
Qed.

(** X2. When [fetch_data_with_retry] returns a body, that body is the answer
    to the last request it made, and nothing follows that request: no sleep,
    no line on stderr.  Before it come none, one or two failed attempts,
    each with its report, its announcement and its wait (1 second after the
    first, 2 after the second). *)
Theorem fetch_data_with_retry_answer (w : world) (url : string)
    (st st' : state) (body : string) :
  fetch_data_with_retry w url st = (Ok (Some body), st') ->
  exists before,
    st' = extend (before ++ [EUrlopen url 5]) st
    /\ urlopen_out w (trace st ++ before) url 5 = Ok body
    /\ (before = []
        \/ (exists e1,
              before = failed_attempt MAX_RETRIES INITIAL_DELAY url 0 e1
              /\ waits before = [1])
        \/ (exists e1 e2,
              before = (failed_attempt MAX_RETRIES INITIAL_DELAY url 0 e1
                        ++ failed_attempt MAX_RETRIES INITIAL_DELAY url 1 e2)%list
              /\ waits before = [1; 2])).
Proof.
  intros H.
  destruct (fetch_data_with_retry_fetch_run w url st) as (o & evs & E & Hrun).
  rewrite E in H. inversion H; subst. clear H.
  invert_fetch_run.
  - exists []. rewrite app_nil_r. repeat split; auto.
  - eexists. split; [reflexivity|]. split; [eassumption|].
    right. left. eexists. split; reflexivity.
  - eexists (_ ++ _)%list. split; [rewrite <- app_assoc; reflexivity|].
    split; [rewrite app_assoc; eassumption|].
    right. right. eexists _, _. split; reflexivity.
Qed.

Lemma fetch_data_with_retry_answer_witness :
  exists before,
    snd (fetch_data_with_retry online PUBLIC_IP_SERVICE_URL init_state)
    = extend (before ++ [EUrlopen PUBLIC_IP_SERVICE_URL 5]) init_state
    /\ urlopen_out online (trace init_state ++ before) PUBLIC_IP_SERVICE_URL 5
       = Ok ("203.0.113.5" ++ LF).
Proof.
  assert (H : fetch_data_with_retry online PUBLIC_IP_SERVICE_URL init_state
              = (Ok (Some ("203.0.113.5" ++ LF)),
                 snd (fetch_data_with_retry online PUBLIC_IP_SERVICE_URL
                        init_state))) by reflexivity.
  destruct (fetch_data_with_retry_answer online PUBLIC_IP_SERVICE_URL
              init_state _ _ H) as (before & Hst & Hans & _).
  exists before. split; assumption.
Defined.

(** X3. [fetch_data_with_retry] returns [None] only after three requests
    that all raised: the calls it made are exactly those of three failed
    attempts, numbered 1/3, 2/3 and 3/3 on stderr, with waits of 1 and 2
    seconds and none after the third. *)
Theorem fetch_data_with_retry_none (w : world) (url : string)
    (st st' : state) :
  fetch_data_with_retry w url st = (Ok None, st') ->
  exists e1 e2 e3,
    urlopen_out w (trace st) url 5 = Raise e1
    /\ urlopen_out w
         (trace st ++ failed_attempt MAX_RETRIES INITIAL_DELAY url 0 e1)
         url 5 = Raise e2
    /\ urlopen_out w
         ((trace st ++ failed_attempt MAX_RETRIES INITIAL_DELAY url 0 e1)
          ++ failed_attempt MAX_RETRIES INITIAL_DELAY url 1 e2)
         url 5 = Raise e3
    /\ st' = extend
               (failed_attempt MAX_RETRIES INITIAL_DELAY url 0 e1
                ++ failed_attempt MAX_RETRIES INITIAL_DELAY url 1 e2
                ++ failed_attempt MAX_RETRIES INITIAL_DELAY url 2 e3)
               st
    /\ waits (failed_attempt MAX_RETRIES INITIAL_DELAY url 0 e1
              ++ failed_attempt MAX_RETRIES INITIAL_DELAY url 1 e2
              ++ failed_attempt MAX_RETRIES INITIAL_DELAY url 2 e3)
       = [1; 2].
Proof.
  intros H.
  destruct (fetch_data_with_retry_fetch_run w url st) as (o & evs & E & Hrun).
  rewrite E in H. inversion H; subst. clear H.
  invert_fetch_run.
  exists e, e0, e1. rewrite app_nil_r. repeat split; assumption.
Qed.

Lemma fetch_data_with_retry_none_witness :
  exists e1 e2 e3,
    snd (fetch_data_with_retry offline GEOLOCATION_SERVICE_URL init_state)
    = extend
        (failed_attempt MAX_RETRIES INITIAL_DELAY GEOLOCATION_SERVICE_URL 0 e1
         ++ failed_attempt MAX_RETRIES INITIAL_DELAY GEOLOCATION_SERVICE_URL 1 e2
         ++ failed_attempt MAX_RETRIES INITIAL_DELAY GEOLOCATION_SERVICE_URL 2 e3)
        init_state.
Proof.
  assert (H : fetch_data_with_retry offline GEOLOCATION_SERVICE_URL init_state
              = (Ok None,
                 snd (fetch_data_with_retry offline GEOLOCATION_SERVICE_URL
                        init_state))) by reflexivity.
  destruct (fetch_data_with_retry_none offline GEOLOCATION_SERVICE_URL
              init_state _ H) as (e1 & e2 & e3 & _ & _ & _ & Hst & _).
  exists e1, e2, e3. exact Hst.
Defined.

Lemma sum_app (l1 l2 : list Z) :
  fold_right Z.add 0 (l1 ++ l2)
  = fold_right Z.add 0 l1 + fold_right Z.add 0 l2.
Proof. induction l1 as [|x l1 IH]; cbn [app fold_right]; lia. Qed.

Lemma sum_doubling (d : Z) (m : nat) :
  fold_right Z.add 0 (map (fun i => d * 2 ^ Z.of_nat i) (seq 0 m))
  = d * (2 ^ Z.of_nat m - 1).
Proof.
  induction m as [|m IH]; [cbn; lia|].
  rewrite seq_S, map_app, sum_app, IH. cbn [map fold_right Nat.add].
  rewrite Nat2Z.inj_succ, Z.pow_succ_r by lia. lia.
Qed.

(** A non-negative first delay whose last doubling is accepted by
    [time.sleep] makes every delay of the loop an accepted one. *)
Lemma delays_fit_of_last (n : nat) (d : Z) :
  0 <= d ->
  d * 2 ^ (Z.of_nat n - 2) <= MAX_SLEEP ->
  delays_fit n d.
Proof.
  intros Hd Hlast attempt Hlt. split.
  - apply Z.mul_nonneg_nonneg; [exact Hd | apply Z.pow_nonneg; lia].
  - apply Z.le_trans with (d * 2 ^ (Z.of_nat n - 2)); [|exact Hlast].
    apply Z.mul_le_mono_nonneg_l; [exact Hd|].
    apply Z.pow_le_mono_r; lia.
Qed.



(** Outside these bounds the loop does not return: a negative delay, or one
    too long for [time.sleep], raises after the first failed request, since
    the sleep is not inside the [try]. *)
Lemma fetch_loop_rejected_delay :
  fst (fetch_loop offline 2 (-1) GEOLOCATION_SERVICE_URL (seq 0 2) init_state)
  = Raise (mkExn OtherException "sleep length must be non-negative")
  /\ fst (fetch_loop offline 2 (MAX_SLEEP + 1) GEOLOCATION_SERVICE_URL (seq 0 2)
            init_state)
     = Raise (mkExn OtherException
                "timestamp too large to convert to C _PyTime_t").
Proof. split; vm_compute; reflexivity. Qed.

(** ** The public IP *)

Lemma lstrip_clean (cs : list ascii) : clean_head (lstrip_chars cs).
Proof.
  induction cs as [|c cs IH]; cbn [lstrip_chars]; [exact I|].
  destruct (isspace c) eqn:E; [exact IH | exact E].
Qed.

Lemma lstrip_of_clean (cs : list ascii) :
  clean_head cs -> lstrip_chars cs = cs.
Proof.
  destruct cs as [|c cs]; cbn [clean_head lstrip_chars]; [reflexivity|].
  intros ->. reflexivity.
Qed.

Lemma lstrip_suffix (cs : list ascii) :
  exists spaces, cs = (spaces ++ lstrip_chars cs)%list.
Proof.
  induction cs as [|c cs (spaces & IH)]; [exists []; reflexivity|].
  cbn [lstrip_chars]. destruct (isspace c).
  - exists (c :: spaces). cbn [app]. rewrite <- IH. reflexivity.
  - exists []. reflexivity.
Qed.

Lemma rstrip_clean_head (cs : list ascii) :
  clean_head cs -> clean_head (rstrip_chars cs).
Proof.
  intros Hclean. unfold rstrip_chars.
  destruct (lstrip_suffix (rev cs)) as (spaces & Hsplit).
  apply (f_equal (@rev ascii)) in Hsplit.
  rewrite rev_involutive, rev_app_distr in Hsplit.
  destruct (rev (lstrip_chars (rev cs))) as [|c rest]; [exact I|].
  rewrite Hsplit in Hclean. exact Hclean.
Qed.

Lemma rstrip_idempotent (cs : list ascii) :
  rstrip_chars (rstrip_chars cs) = rstrip_chars cs.
Proof.
  unfold rstrip_chars. rewrite rev_involutive.
  rewrite (lstrip_of_clean _ (lstrip_clean (rev cs))). reflexivity.
Qed.

Lemma strip_idempotent (s : string) : strip (strip s) = strip s.
Proof.
  unfold strip. rewrite list_ascii_of_string_of_list_ascii.
  set (m := lstrip_chars (list_ascii_of_string s)).
  rewrite (lstrip_of_clean (rstrip_chars m)).
  - rewrite rstrip_idempotent. reflexivity.
  - apply rstrip_clean_head, lstrip_clean.
Qed.

(** X5. [get_public_ip] never raises, and the string it returns never has
    whitespace around it: it is either the failure text or the trimmed,
    non-empty body that some request to the echo service was answered
    with. *)
Theorem get_public_ip_is_trimmed (w : world) (st : state) :
  exists ip evs,
    get_public_ip w st = (Ok ip, extend evs st)
    /\ strip ip = ip
    /\ (ip = CONNECTION_FAILED
        \/ exists h body,
             urlopen_out w h PUBLIC_IP_SERVICE_URL 5 = Ok body
             /\ body <> ""
             /\ ip = strip body).
Proof.
  destruct (fetch_data_with_retry_run w PUBLIC_IP_SERVICE_URL st)
    as (o & evs & E & _).
  rewrite (get_public_ip_of_fetch w st o _ E).
  destruct o as [text|].
  - destruct (truthy text) eqn:Htruthy.
    + exists (strip text), evs. split; [reflexivity|].
      split; [apply strip_idempotent|]. right.
      destruct (fetch_loop_sound w MAX_RETRIES INITIAL_DELAY
                  PUBLIC_IP_SERVICE_URL (seq 0 MAX_RETRIES) st text _ E)
        as (h & Hh).
      exists h, text. split; [exact Hh|]. split; [|reflexivity].
      intros ->. discriminate Htruthy.
    + exists CONNECTION_FAILED, evs. split; [reflexivity|].
      split; [reflexivity | left; reflexivity].
  - exists CONNECTION_FAILED, evs. split; [reflexivity|].
    split; [reflexivity | left; reflexivity].
Qed.

(** ** The location *)

(** X6. The public IP passed to [get_geolocation] is only compared with the
    failure text: for any two other values the lookup does exactly the same,
    and every request it makes goes to the fixed location URL.  The service
    sees the caller's address, not the argument. *)
Theorem get_geolocation_ignores_ip (w : world) (ip1 ip2 : string)
    (st : state) :
  ip1 <> CONNECTION_FAILED ->
  ip2 <> CONNECTION_FAILED ->
  get_geolocation w ip1 st = get_geolocation w ip2 st
  /\ exists r evs,
       get_geolocation w ip1 st = (r, extend evs st)
       /\ Forall (fetch_event GEOLOCATION_SERVICE_URL) evs.
Proof.
  intros H1 H2. split; [|apply get_geolocation_run].
  unfold get_geolocation.
  destruct (String.eqb_spec ip1 CONNECTION_FAILED); [contradiction|].
  destruct (String.eqb_spec ip2 CONNECTION_FAILED); [contradiction|].
  reflexivity.
Qed.

Lemma get_geolocation_ignores_ip_witness :
  get_geolocation online "203.0.113.5" init_state
  = get_geolocation online "not an address" init_state.
Proof.
  assert (H1 : "203.0.113.5" <> CONNECTION_FAILED) by discriminate.
  assert (H2 : "not an address" <> CONNECTION_FAILED) by discriminate.
  exact (proj1 (get_geolocation_ignores_ip online "203.0.113.5"
                  "not an address" init_state H1 H2)).
Defined.

(** X7. [get_geolocation] raises in two situations only, both after a
    request was answered with a non-empty body: [json.loads] returned a
    value that is not a dict, and the exception is the [AttributeError] of
    [data.get]; or [json.loads] itself raised something other than
    [JSONDecodeError].  Failed requests and undecodable bodies never make it
    raise. *)
Theorem get_geolocation_raises_only (w : world) (public_ip : string)
    (st st' : state) (e : exn) :
  get_geolocation w public_ip st = (Raise e, st') ->
  exists h text,
    urlopen_out w h GEOLOCATION_SERVICE_URL 5 = Ok text
    /\ text <> ""
    /\ ((exists data,
           json_loads w text = Ok data
           /\ (forall items, data <> PDict items)
           /\ e = mkExn AttributeError
                    ("'" ++ type_name data ++ "' object has no attribute 'get'"))
        \/ (json_loads w text = Raise e /\ is_JSONDecodeError e = false)).
Proof.
  intros H.
  destruct (String.eqb_spec public_ip CONNECTION_FAILED) as [->|Hip];
    [discriminate H|].
  destruct (fetch_data_with_retry_run w GEOLOCATION_SERVICE_URL st)
    as (o & evs & E & _).
  rewrite (get_geolocation_of_fetch w public_ip st o _ Hip E) in H.
  destruct o as [text|]; [|discriminate H].
  destruct (truthy text) eqn:Htruthy; [|discriminate H].
  destruct (fetch_loop_sound w MAX_RETRIES INITIAL_DELAY
              GEOLOCATION_SERVICE_URL (seq 0 MAX_RETRIES) st text _ E)
    as (h & Hh).
  exists h, text. split; [exact Hh|].
  split; [intros ->; discriminate Htruthy|].
  destruct (json_loads w text) as [data|e'] eqn:Hjson.
  - left. exists data. split; [reflexivity|].
    destruct data; try discriminate H; inversion H; subst;
      (split; [intros items'; discriminate | reflexivity]).
  - right. destruct (is_JSONDecodeError e') eqn:He; [discriminate H|].
    inversion H; subst. split; [reflexivity | exact He].
Qed.

Lemma get_geolocation_raises_only_witness :
  exists h text,
    urlopen_out (location_answers "null") h GEOLOCATION_SERVICE_URL 5 = Ok text
    /\ text <> ""
    /\ ((exists data,
           json_loads (location_answers "null") text = Ok data
           /\ (forall items, data <> PDict items)
           /\ mkExn AttributeError "'NoneType' object has no attribute 'get'"
              = mkExn AttributeError
                  ("'" ++ type_name data ++ "' object has no attribute 'get'"))
        \/ (json_loads (location_answers "null") text
            = Raise (mkExn AttributeError
                       "'NoneType' object has no attribute 'get'")
            /\ is_JSONDecodeError
                 (mkExn AttributeError
                    "'NoneType' object has no attribute 'get'") = false)).
Proof.
  assert (H : get_geolocation (location_answers "null") "203.0.113.5" init_state
              = (Raise (mkExn AttributeError
                          "'NoneType' object has no attribute 'get'"),
                 snd (get_geolocation (location_answers "null") "203.0.113.5"
                        init_state))) by reflexivity.
  exact (get_geolocation_raises_only (location_answers "null") "203.0.113.5"
           init_state _ _ H).
Defined.

(** ** The local probe, path by path *)

(** X8. The two ways [get_local_info] comes to an address, once the host
    name is read and the socket created.  When the probe (connect to
    8.8.8.8 port 1, then getsockname) succeeds, the address is the one of
    the socket, its port is dropped, and no name is resolved.  When connect
    raises, whatever the class of the exception, the host name just read,
    and only it, is resolved instead.  On both paths the socket is closed
    last. *)
Theorem get_local_info_paths (w : world) (st : state) (hostname : string) :
  gethostname_out w (trace st) = Ok hostname ->
  socket_out w (trace st ++ [EGetHostName]) = Ok tt ->
  close_out w (trace st ++ [EGetHostName; ESocket; EConnect "8.8.8.8" 1;
                            EGetSockName]) = Ok tt ->
  close_out w (trace st ++ [EGetHostName; ESocket; EConnect "8.8.8.8" 1;
                            EGetHostByName hostname]) = Ok tt ->
  (forall ip port,
     connect_out w (trace st ++ [EGetHostName; ESocket]) "8.8.8.8" 1 = Ok tt ->
     getsockname_out w (trace st ++ [EGetHostName; ESocket;
                                     EConnect "8.8.8.8" 1]) = Ok (ip, port) ->
     get_local_info w st
     = (Ok (hostname, ip),
        extend [EGetHostName; ESocket; EConnect "8.8.8.8" 1; EGetSockName;
                EClose] st))
  /\ (forall e ip,
        connect_out w (trace st ++ [EGetHostName; ESocket]) "8.8.8.8" 1
        = Raise e ->
        gethostbyname_out w (trace st ++ [EGetHostName; ESocket;
                                          EConnect "8.8.8.8" 1]) hostname
        = Ok ip ->
        get_local_info w st
        = (Ok (hostname, ip),
           extend [EGetHostName; ESocket; EConnect "8.8.8.8" 1;
                   EGetHostByName hostname; EClose] st)).
Proof.
  intros Hname Hsock Hclose1 Hclose2.
  change [EGetHostName; ESocket; EConnect "8.8.8.8" 1; EGetSockName]
    with ([EGetHostName] ++ [ESocket] ++ [EConnect "8.8.8.8" 1]
          ++ [EGetSockName])%list in Hclose1.
  change [EGetHostName; ESocket; EConnect "8.8.8.8" 1; EGetHostByName hostname]
    with ([EGetHostName] ++ [ESocket] ++ [EConnect "8.8.8.8" 1]
          ++ [EGetHostByName hostname])%list in Hclose2.
  repeat rewrite app_assoc in Hclose1. repeat rewrite app_assoc in Hclose2.
  split.
  - intros ip port Hconnect Hsockname.
    change [EGetHostName; ESocket]
      with ([EGetHostName] ++ [ESocket])%list in Hconnect.
    change [EGetHostName; ESocket; EConnect "8.8.8.8" 1]
      with ([EGetHostName] ++ [ESocket] ++ [EConnect "8.8.8.8" 1])%list
      in Hsockname.
    repeat rewrite app_assoc in Hconnect.
    repeat rewrite app_assoc in Hsockname.
    unfold get_local_info, try_except, try_finally, bind, gethostname,
      socket_dgram, connect, getsockname, close, call, ret.
    cbn [trace emit extend set_sockets].
    rewrite Hname, Hsock. cbn [trace emit extend set_sockets].
    rewrite Hconnect. cbn [trace emit extend set_sockets].
    rewrite Hsockname. cbn [trace emit extend set_sockets].
    rewrite Hclose1. local_info_state. reflexivity.
  - intros e ip Hconnect Hresolve.
    change [EGetHostName; ESocket]
      with ([EGetHostName] ++ [ESocket])%list in Hconnect.
    change [EGetHostName; ESocket; EConnect "8.8.8.8" 1]
      with ([EGetHostName] ++ [ESocket] ++ [EConnect "8.8.8.8" 1])%list
      in Hresolve.
    repeat rewrite app_assoc in Hconnect.
    repeat rewrite app_assoc in Hresolve.
    unfold get_local_info, try_except, try_finally, bind, gethostname,
      socket_dgram, connect, gethostbyname, close, call, ret.
    cbn [trace emit extend set_sockets].
    rewrite Hname, Hsock. cbn [trace emit extend set_sockets].
    rewrite Hconnect. cbn [trace emit extend set_sockets select_handler
                           is_Exception].
    unfold gethostbyname, call. cbn [trace emit extend set_sockets].
    rewrite Hresolve. cbn [trace emit extend set_sockets].
    rewrite Hclose2. local_info_state. reflexivity.
Qed.

Lemma get_local_info_paths_witness :
  get_local_info online init_state
  = (Ok ("workstation", "192.168.1.20"),
     extend [EGetHostName; ESocket; EConnect "8.8.8.8" 1; EGetSockName;
             EClose] init_state)
  /\ get_local_info loopback_only init_state
     = (Ok ("workstation", "127.0.0.1"),
        extend [EGetHostName; ESocket; EConnect "8.8.8.8" 1;
                EGetHostByName "workstation"; EClose] init_state).
Proof.
  split.
  - exact (proj1 (get_local_info_paths online init_state "workstation"
                    eq_refl eq_refl eq_refl eq_refl)
             "192.168.1.20" 50000 eq_refl eq_refl).
  - exact (proj2 (get_local_info_paths loopback_only init_state "workstation"
                    eq_refl eq_refl eq_refl eq_refl)
             (mkExn OSError "[Errno 101] Network is unreachable")
             "127.0.0.1" eq_refl eq_refl).
Defined.

(** ** The whole run, whatever happens *)

(** X9. However the run ends, as main program or as import: nothing is ever
    written to the real stdout and no socket is left open.  When the run
    reaches its end, [sys.stdout] has been restored and exactly one POST was
    made, the last call of the run; when an exception ends it, [sys.stdout]
    is still redirected and nothing was posted. *)
Theorem run_outcome (w : world) (is_main : bool) :
  exists r st,
    run w is_main = (r, st)
    /\ filter is_console (trace st) = []
    /\ open_sockets st = 0%nat
    /\ match r with
       | Ok _ =>
           captured st = false
           /\ exists evs, trace st = (evs ++ [delivery (terminal_output st)])%list
                          /\ posts evs = []
       | Raise _ => captured st = true /\ posts (trace st) = []
       end.
Proof.
  destruct is_main.
  - rewrite run_executed.
    set (c0 := emit ELogging (set_captured true (set_buffer "" init_state))).
    destruct (main_captured_run w c0 eq_refl)
      as (r1 & evs1 & out1 & E1 & F1 & _).
    destruct (main_event_filters evs1 F1) as (_ & Hp1 & Hc1).
    destruct r1 as [[]|e].
    + rewrite (bind_ok _ _ _ _ _ E1).
      destruct (main_captured_run w (grow (EGetHostName :: evs1) out1 c0)
                  eq_refl) as (r2 & evs2 & out2 & E2 & F2 & _).
      destruct (main_event_filters evs2 F2) as (_ & Hp2 & Hc2).
      destruct r2 as [[]|e].
      * rewrite (bind_ok _ _ _ _ _ E2), deliver_run.
        eexists _, _. split; [reflexivity|].
        cbn [trace extend set_captured grow c0 emit set_buffer init_state app
             captured terminal_output open_sockets].
        split; [|split; [reflexivity|split; [reflexivity|]]].
        -- cbn [filter is_console]. rewrite !filter_app. cbn [filter is_console].
           rewrite Hc1, Hc2. reflexivity.
        -- exists (ELogging :: EGetHostName :: evs1 ++ EGetHostName :: evs2)%list.
           split; [reflexivity|].
           unfold posts. cbn [filter is_post]. rewrite filter_app.
           cbn [filter is_post]. rewrite Hp1, Hp2. reflexivity.
      * rewrite (bind_raise _ _ _ _ _ E2).
        eexists _, _. split; [reflexivity|].
        cbn [trace extend set_captured grow c0 emit set_buffer init_state app
             captured terminal_output open_sockets].
        split; [|split; [reflexivity|split; [reflexivity|]]].
        -- cbn [filter is_console]. rewrite filter_app. cbn [filter is_console].
           rewrite Hc1, Hc2. reflexivity.
        -- unfold posts. cbn [filter is_post]. rewrite filter_app.
           cbn [filter is_post]. rewrite Hp1, Hp2. reflexivity.
    + rewrite (bind_raise _ _ _ _ _ E1).
      eexists _, _. split; [reflexivity|].
      cbn [trace extend set_captured grow c0 emit set_buffer init_state app
           captured terminal_output open_sockets].
      split; [|split; [reflexivity|split; [reflexivity|]]].
      * cbn [filter is_console]. exact Hc1.
      * unfold posts. cbn [filter is_post]. exact Hp1.
  - rewrite run_imported.
    set (c0 := set_captured true (set_buffer "" init_state)).
    destruct (main_captured_run w c0 eq_refl)
      as (r1 & evs1 & out1 & E1 & F1 & _).
    destruct (main_event_filters evs1 F1) as (_ & Hp1 & Hc1).
    destruct r1 as [[]|e].
    + rewrite (bind_ok _ _ _ _ _ E1), deliver_run.
      eexists _, _. split; [reflexivity|].
      cbn [trace extend set_captured grow c0 emit set_buffer init_state app
           captured terminal_output open_sockets].
      split; [|split; [reflexivity|split; [reflexivity|]]].
      * cbn [filter is_console]. rewrite filter_app. cbn [filter is_console].
        rewrite Hc1. reflexivity.
      * exists (EGetHostName :: evs1). split; [reflexivity|].
        unfold posts. cbn [filter is_post]. exact Hp1.
    + rewrite (bind_raise _ _ _ _ _ E1).
      eexists _, _. split; [reflexivity|].
      cbn [trace extend set_captured grow c0 emit set_buffer init_state app
           captured terminal_output open_sockets].
      split; [|split; [reflexivity|split; [reflexivity|]]].
      * cbn [filter is_console]. exact Hc1.
      * unfold posts. cbn [filter is_post]. exact Hp1.
Qed.

Lemma returns_get_geolocation_decodable (w : world) (public_ip : string) :
  location_bodies_decodable w -> returns (get_geolocation w public_ip).
Proof.
  intros Hjson st.
  destruct (String.eqb_spec public_ip CONNECTION_FAILED) as [->|Hip].
  - eexists _, _. reflexivity.
  - destruct (fetch_data_with_retry_run w GEOLOCATION_SERVICE_URL st)
      as (o & evs & E & _).
    rewrite (get_geolocation_of_fetch w public_ip st o _ Hip E).
    destruct o as [text|]; [destruct (truthy text)|];
      try (eexists _, _; reflexivity).
    destruct (fetch_loop_sound w MAX_RETRIES INITIAL_DELAY
                GEOLOCATION_SERVICE_URL (seq 0 MAX_RETRIES) st text _ E)
      as (h & Hh).
    specialize (Hjson h text Hh).
    destruct (json_loads w text) as [data|e];
      [destruct data; try contradiction | rewrite Hjson];
      eexists _, _; reflexivity.
Qed.

(** X10. The program ends with exit status 0, as main program or as import,
    whenever [gethostname], [socket], [gethostbyname] and [close] raise
    nothing but [socket.error] and every body the location service answers
    with is either read by [json.loads] as an object or rejected with
    [JSONDecodeError].  Nothing is asked of the network: requests may fail
    or succeed in any order, and so may the POST to the webhook. *)
Theorem program_exits_zero (w : world) (is_main : bool) :
  socket_errors_only w ->
  location_bodies_decodable w ->
  fst (run w is_main) = Ok tt
  /\ exit_status (fst (run w is_main)) = 0.
Proof.
  intros Hsock Hjson.
  assert (Hmain : returns (main w)).
  { unfold main.
    repeat first
      [ apply returns_print
      | apply returns_get_local_info; exact Hsock
      | apply returns_get_public_ip
      | apply returns_get_geolocation_decodable; exact Hjson
      | apply returns_bind; [|intros ?]
      | match goal with
        | |- returns (if ?b then _ else _) => destruct b
        end ]. }
  assert (H : returns (module_body w is_main)).
  { unfold module_body.
    repeat first
      [ exact Hmain
      | apply returns_bind; [|intros ?]
      | match goal with
        | |- returns (if ?b then _ else _) => destruct b
        | |- returns (send_to_webhook _ _) =>
            intros st; rewrite send_to_webhook_run; eexists _, _; reflexivity
        | |- returns _ => intros st; eexists _, _; reflexivity
        end ]. }
  unfold run. destruct (H init_state) as ([] & st' & ->). split; reflexivity.
Qed.

Lemma program_exits_zero_witness :
  socket_errors_only online
  /\ location_bodies_decodable online
  /\ fst (run online true) = Ok tt
  /\ exit_status (fst (run online true)) = 0.
Proof.
  assert (Hsock : socket_errors_only online)
    by (repeat split; intros; cbn; reflexivity).
  assert (Hjson : location_bodies_decodable online).
  { intros h body Hbody.
    assert (Hsame : body = sample_location)
      by (vm_compute in Hbody; inversion Hbody; reflexivity).
    rewrite Hsame. vm_compute. exact I. }
  split; [exact Hsock|]. split; [exact Hjson|].
  exact (program_exits_zero online true Hsock Hjson).
Defined.

(** ** Requests and seconds *)

Lemma cost_app (wt : event -> Z) (evs1 evs2 : list event) :
  cost wt (evs1 ++ evs2) = cost wt evs1 + cost wt evs2.
Proof. unfold cost. induction evs1 as [|e evs1 IH]; cbn [app fold_right]; lia. Qed.

Lemma cost_requests (evs : list event) :
  cost request_weight evs = Z.of_nat (attempts_made evs).
Proof.
  unfold cost, attempts_made.
  induction evs as [|e evs IH]; [reflexivity|].
  destruct e; cbn [fold_right request_weight filter is_attempt length];
    rewrite IH; lia.
Qed.

Lemma cost_sleeps (evs : list event) : cost sleep_weight evs = slept evs.
Proof.
  unfold cost, slept, waits.
  induction evs as [|e evs IH]; [reflexivity|].
  destruct e; cbn [fold_right sleep_weight flat_map app]; rewrite IH; lia.
Qed.

Section Within.

Variable wt : event -> Z.

Lemma within_weaken {A} (k k' : Z) (m : M A) :
  within wt k m -> k <= k' -> within wt k' m.
Proof.
  intros Hm Hk st r st' H. destruct (Hm st r st' H) as (evs & T & C).
  exists evs. split; [exact T | lia].
Qed.

Lemma within_bind {A B} (k1 k2 : Z) (m : M A) (f : A -> M B) :
  within wt k1 m -> (forall a, within wt k2 (f a)) -> 0 <= k2 ->
  within wt (k1 + k2) (bind m f).
Proof.
  intros Hm Hf Hk st r st' H. unfold bind in H.
  destruct (m st) as [[a|e] st1] eqn:E.
  - destruct (Hm st _ _ E) as (evs1 & T1 & C1).
    destruct (Hf a st1 _ _ H) as (evs2 & T2 & C2).
    exists (evs1 ++ evs2)%list. rewrite T2, T1, app_assoc, cost_app.
    split; [reflexivity | lia].
  - inversion H; subst. destruct (Hm st _ _ E) as (evs1 & T1 & C1).
    exists evs1. split; [exact T1 | lia].
Qed.

(** A step that makes calls of no weight. *)
Lemma within_free {A} (m : M A) :
  (forall st r st',
     m st = (r, st') ->
     exists evs, trace st' = (trace st ++ evs)%list
                 /\ Forall (fun e => wt e = 0) evs) ->
  within wt 0 m.
Proof.
  intros Hm st r st' H. destruct (Hm st r st' H) as (evs & T & F).
  exists evs. split; [exact T|].
  assert (Hzero : forall l, Forall (fun e => wt e = 0) l -> cost wt l = 0).
  { induction 1 as [|e l He _ IH]; [reflexivity|].
    unfold cost in *. cbn [fold_right]. lia. }
  rewrite (Hzero evs F). lia.
Qed.

Hypothesis wt_choice : wt = request_weight \/ wt = sleep_weight.

Lemma within_print (text : string) : within wt 0 (print text).
Proof.
  apply within_free. intros st r st' H.
  apply (print_appends (fun e => wt e = 0) text) in H; [exact H|].
  intros t. destruct wt_choice as [-> | ->]; reflexivity.
Qed.

Lemma within_get_local_info (w : world) : within wt 0 (get_local_info w).
Proof.
  apply within_free. intros st r st' H.
  destruct (get_local_info_run w st) as (r' & evs & E & F).
  rewrite E in H. inversion H; subst.
  exists (EGetHostName :: evs). split; [reflexivity|].
  constructor; [destruct wt_choice as [-> | ->]; reflexivity|].
  eapply Forall_impl; [|exact F].
  intros [] He; try destruct He;
    destruct wt_choice as [-> | ->]; reflexivity.
Qed.

Lemma within_fetch_data_with_retry (w : world) (url : string) :
  within wt 3 (fetch_data_with_retry w url).
Proof.
  intros st r st' H.
  destruct (fetch_data_with_retry_fetch_run w url st) as (o & evs & E & Hrun).
  rewrite E in H. inversion H; subst. clear H.
  exists evs. split; [reflexivity|].
  unfold MAX_RETRIES, INITIAL_DELAY in *. invert_fetch_run.
  all: destruct wt_choice as [-> | ->]; cbn; lia.
Qed.

Lemma within_get_public_ip (w : world) : within wt 3 (get_public_ip w).
Proof.
  unfold get_public_ip.
  apply (within_bind 3 0); [apply within_fetch_data_with_retry | | lia].
  intros [text|]; [destruct (truthy text)|];
    intros st r st' H; inversion H; subst;
    exists []; rewrite app_nil_r; (split; [reflexivity | cbn; lia]).
Qed.

Lemma within_get_geolocation (w : world) (public_ip : string) :
  within wt 3 (get_geolocation w public_ip).
Proof.
  assert (Hstill : forall {A} (m : M A),
             (forall st r st', m st = (r, st') -> st' = st) ->
             within wt 0 m).
  { intros A m Hm st r st' H. rewrite (Hm st r st' H).
    exists []. rewrite app_nil_r. split; [reflexivity | cbn; lia]. }
  unfold get_geolocation.
  destruct (public_ip =? CONNECTION_FAILED)%string.
  - apply (within_weaken 0 3); [|lia].
    apply Hstill. intros st r st' H. inversion H. reflexivity.
  - apply (within_bind 3 0); [apply within_fetch_data_with_retry | | lia].
    intros [text|]; [destruct (truthy text)|]; apply Hstill;
      intros st r st' H; try (inversion H; reflexivity).
    unfold try_except, bind, loads in H.
    destruct (json_loads w text) as [data|e];
      [destruct data | cbn [select_handler] in H;
                       destruct (is_JSONDecodeError e)];
      inversion H; reflexivity.
Qed.

(** One run of [main] weighs at most 6: the budget of the WAN lookup and
    that of the location lookup. *)
Lemma within_main (w : world) : within wt 6 (main w).
Proof.
  unfold main.
  repeat (apply (within_bind 0 6); [apply within_print | intros _ | lia]).
  apply (within_bind 0 6); [apply within_get_local_info | intros names | lia].
  repeat (apply (within_bind 0 6); [apply within_print | intros _ | lia]).
  apply (within_bind 3 3); [apply within_get_public_ip | intros ip | lia].
  apply (within_bind 0 3); [apply within_print | intros _ | lia].
  apply (within_bind 3 0); [| intros _ | lia].
  - destruct (negb (ip =? CONNECTION_FAILED)%string).
    + apply (within_bind 3 0);
        [apply within_get_geolocation | intros g; apply within_print | lia].
    + apply (within_weaken 0 3); [apply within_print | lia].
  - apply (within_bind 0 0); [apply within_print | intros _ | lia].
    apply within_print.
Qed.

Lemma within_module_body (w : world) (is_main : bool) :
  within wt (if is_main then 12 else 6) (module_body w is_main).
Proof.
  assert (Hpure : forall (f : state -> state),
             (forall st, trace (f st) = trace st) ->
             within wt 0 (fun st => (Ok tt, f st))).
  { intros f Hf st r st' H. inversion H; subst.
    exists []. rewrite app_nil_r, Hf. split; [reflexivity | cbn; lia]. }
  assert (Htail : within wt 0
            ((fun st => (Ok tt, set_captured false st));;
             output <- (fun st => (Ok (terminal_output st), st));;
             send_to_webhook w output;;
             ret tt)).
  { intros st r st' H. rewrite deliver_run in H. inversion H; subst.
    eexists [_]. split; [reflexivity|].
    destruct wt_choice as [-> | ->]; cbn; lia. }
  assert (Hret : within wt 0 (@ret unit tt)).
  { intros st r st' H. inversion H; subst.
    exists []. rewrite app_nil_r. split; [reflexivity | cbn; lia]. }
  unfold module_body. destruct is_main.
  - apply (within_bind 0 12); [apply Hpure; reflexivity | intros _ | lia].
    apply (within_bind 6 6); [| intros _ | lia].
    + apply (within_bind 0 6); [| intros _; apply within_main | lia].
      intros st r st' H. inversion H; subst.
      exists [ELogging]. split; [reflexivity|].
      destruct wt_choice as [-> | ->]; cbn; lia.
    + apply (within_bind 6 0); [apply within_main | intros _; exact Htail | lia].
  - apply (within_bind 0 6); [apply Hpure; reflexivity | intros _ | lia].
    apply (within_bind 0 6); [exact Hret | intros _ | lia].
    apply (within_bind 6 0); [apply within_main | intros _; exact Htail | lia].
Qed.

End Within.

(** X11. A whole run makes at most 12 requests and sleeps at most 12 seconds
    when the file is executed, at most 6 and 6 when it is imported: each of
    the two lookups of a run of [main] has a budget of 3 requests and 3
    seconds, whatever the network answers. *)
Theorem run_budget (w : world) (is_main : bool) :
  (attempts_made (trace (snd (run w is_main)))
   <= if is_main then 12 else 6)%nat
  /\ 0 <= slept (trace (snd (run w is_main))) <= if is_main then 12 else 6.
Proof.
  unfold run.
  destruct (module_body w is_main init_state) as [r st] eqn:E. cbn [snd].
  destruct (within_module_body request_weight (or_introl eq_refl) w is_main
              _ _ _ E) as (evs1 & T1 & C1).
  destruct (within_module_body sleep_weight (or_intror eq_refl) w is_main
              _ _ _ E) as (evs2 & T2 & C2).
  cbn [trace init_state app] in T1, T2.
  rewrite cost_requests, <- T1 in C1. rewrite cost_sleeps, <- T2 in C2.
  split; [destruct is_main; lia | exact C2].
Qed.

(** ** When the echo service cannot be reached *)

Lemma attempts_made_app (evs1 evs2 : list event) :
  attempts_made (evs1 ++ evs2) = (attempts_made evs1 + attempts_made evs2)%nat.
Proof. unfold attempts_made. rewrite filter_app, length_app. reflexivity. Qed.

Lemma geo_fetches_app (evs1 evs2 : list event) :
  geo_fetches (evs1 ++ evs2) = (geo_fetches evs1 + geo_fetches evs2)%nat.
Proof. unfold geo_fetches. rewrite filter_app, length_app. reflexivity. Qed.

Lemma slept_app (evs1 evs2 : list event) :
  slept (evs1 ++ evs2) = slept evs1 + slept evs2.
Proof. rewrite <- !cost_sleeps. apply cost_app. Qed.

Lemma local_events_silent (evs : list event) :
  Forall local_event evs ->
  attempts_made evs = 0%nat /\ slept evs = 0 /\ geo_fetches evs = 0%nat.
Proof.
  unfold attempts_made, slept, waits, geo_fetches.
  induction 1 as [|e evs He _ (IH1 & IH2 & IH3)]; [repeat split|].
  destruct e; try destruct He;
    cbn [filter is_attempt is_geo_fetch flat_map app fold_right length];
    repeat split; assumption.
Qed.

(** The WAN lookup when no request is ever answered: three failed attempts
    and the failure text. *)
Lemma get_public_ip_down (w : world) (st : state) :
  (forall h, exists e, urlopen_out w h PUBLIC_IP_SERVICE_URL 5 = Raise e) ->
  exists e1 e2 e3,
    get_public_ip w st
    = (Ok CONNECTION_FAILED,
       extend
         (failed_attempt MAX_RETRIES INITIAL_DELAY PUBLIC_IP_SERVICE_URL 0 e1
          ++ failed_attempt MAX_RETRIES INITIAL_DELAY PUBLIC_IP_SERVICE_URL 1 e2
          ++ failed_attempt MAX_RETRIES INITIAL_DELAY PUBLIC_IP_SERVICE_URL 2 e3)
         st).
Proof.
  intros Hall.
  destruct (fetch_data_with_retry_fetch_run w PUBLIC_IP_SERVICE_URL st)
    as (o & evs & E & Hrun).
  rewrite (get_public_ip_of_fetch w st o _ E).
  invert_fetch_run;
    try match goal with
        | H : urlopen_out w ?h _ 5 = Ok _ |- _ =>
            destruct (Hall h) as [e' He']; congruence
        end.
  exists e, e0, e1. rewrite app_nil_r. reflexivity.
Qed.

(** One captured run of [main] when the echo service cannot be reached. *)
Lemma main_wan_down (w : world) (st : state) :
  captured st = true ->
  socket_errors_only w ->
  (forall h, exists e, urlopen_out w h PUBLIC_IP_SERVICE_URL 5 = Raise e) ->
  exists names evs,
    main w st
    = (Ok tt,
       grow (EGetHostName :: evs)
         (report_text (fst names) (snd names) CONNECTION_FAILED NO_PUBLIC_IP)
         st)
    /\ Forall main_event evs
    /\ attempts_made evs = 3%nat
    /\ slept evs = 3
    /\ geo_fetches evs = 0%nat.
Proof.
  intros Hcap Hsock Hall.
  destruct (main w st) as [r st'] eqn:E.
  rewrite <- (grow_nil st) in E at 1. unfold main in E.
  rewrite !bind_print_grow in E by exact Hcap.
  match type of E with bind _ _ ?c = _ =>
    destruct (get_local_info_run w c) as (r1 & evs1 & E1 & F1);
    destruct (returns_get_local_info w Hsock c) as (names & c1 & Hret) end.
  rewrite E1 in Hret. inversion Hret; subst. clear Hret.
  rewrite extend_grow in E1. cbn [app] in E1.
  rewrite (bind_ok _ _ _ _ _ E1) in E.
  rewrite !bind_print_grow in E by exact Hcap.
  match type of E with bind _ _ ?c = _ =>
    destruct (get_public_ip_down w c Hall) as (e1 & e2 & e3 & E2) end.
  rewrite extend_grow in E2. cbn [app] in E2.
  rewrite (bind_ok _ _ _ _ _ E2) in E.
  rewrite bind_print_grow in E by exact Hcap.
  change (negb (CONNECTION_FAILED =? CONNECTION_FAILED)%string) with false in E.
  cbv iota in E.
  rewrite !bind_print_grow in E by exact Hcap.
  rewrite print_grow in E by exact Hcap.
  inversion E; subst. clear E.
  destruct (local_events_silent evs1 F1) as (A1 & S1 & G1).
  eexists names, _. split; [reflexivity|].
  split; [|split; [|split]].
  - apply Forall_app. split.
    + eapply Forall_impl; [|exact F1]. intros [] He; solve [exact I | destruct He].
    + unfold MAX_RETRIES, INITIAL_DELAY. cbn. repeat constructor.
  - rewrite attempts_made_app, A1. reflexivity.
  - rewrite slept_app, S1. reflexivity.
  - rewrite geo_fetches_app, G1. reflexivity.
Qed.

(** X12. When the echo service is never reached and the socket calls raise
    nothing but [socket.error], the program still ends normally and
    delivers its report: each run of [main] makes exactly 3 requests, all to
    the echo service, sleeps 3 seconds, and prints a report whose public IP
    is ["N/A (Connection Failed)"] and whose location is
    ["N/A (Failed to retrieve Public IP)"]; the location service is never
    contacted. *)
Theorem run_when_wan_down (w : world) (is_main : bool) :
  socket_errors_only w ->
  never_answers w PUBLIC_IP_SERVICE_URL [] ->
  exists st names,
    run w is_main = (Ok tt, st)
    /\ length names = (if is_main then 2 else 1)%nat
    /\ terminal_output st
       = String.concat ""
           (map (fun n => report_text (fst n) (snd n) CONNECTION_FAILED
                            NO_PUBLIC_IP) names)
    /\ posts (trace st) = [delivery (terminal_output st)]
    /\ geo_fetches (trace st) = 0%nat
    /\ attempts_made (trace st) = (if is_main then 6 else 3)%nat
    /\ slept (trace st) = (if is_main then 6 else 3).
Proof.
  intros Hsock Hfail.
  assert (Hall : forall h,
             exists e, urlopen_out w h PUBLIC_IP_SERVICE_URL 5 = Raise e)
    by (intros h; exact (Hfail h)).
  destruct is_main.
  - rewrite run_executed.
    set (c0 := emit ELogging (set_captured true (set_buffer "" init_state))).
    destruct (main_wan_down w c0 eq_refl Hsock Hall)
      as (n1 & evs1 & E1 & F1 & A1 & S1 & G1).
    rewrite (bind_ok _ _ _ _ _ E1).
    match goal with |- context [bind (main w) _ ?c] =>
      destruct (main_wan_down w c eq_refl Hsock Hall)
        as (n2 & evs2 & E2 & F2 & A2 & S2 & G2) end.
    rewrite (bind_ok _ _ _ _ _ E2), deliver_run.
    destruct (main_event_filters evs1 F1) as (_ & P1 & _).
    destruct (main_event_filters evs2 F2) as (_ & P2 & _).
    eexists _, [n1; n2]. split; [reflexivity|].
    cbn [trace extend set_captured grow c0 emit set_buffer init_state app
         terminal_output length map String.concat].
    split; [reflexivity|]. split; [reflexivity|].
    change (ELogging :: EGetHostName :: (evs1 ++ EGetHostName :: evs2) ++ ?d)%list
      with ([ELogging; EGetHostName] ++ (evs1 ++ [EGetHostName] ++ evs2) ++ d)%list.
    split; [|split; [|split]].
    + unfold posts. rewrite !filter_app, P1, P2. reflexivity.
    + rewrite !geo_fetches_app, G1, G2. reflexivity.
    + rewrite !attempts_made_app, A1, A2. reflexivity.
    + rewrite !slept_app, S1, S2. reflexivity.
  - rewrite run_imported.
    set (c0 := set_captured true (set_buffer "" init_state)).
    destruct (main_wan_down w c0 eq_refl Hsock Hall)
      as (n1 & evs1 & E1 & F1 & A1 & S1 & G1).
    rewrite (bind_ok _ _ _ _ _ E1), deliver_run.
    destruct (main_event_filters evs1 F1) as (_ & P1 & _).
    eexists _, [n1]. split; [reflexivity|].
    cbn [trace extend set_captured grow c0 emit set_buffer init_state app
         terminal_output length map String.concat].
    split; [reflexivity|]. split; [reflexivity|].
    change (EGetHostName :: evs1 ++ ?d)%list
      with ([EGetHostName] ++ evs1 ++ d)%list.
    split; [|split; [|split]].
    + unfold posts. rewrite !filter_app, P1. reflexivity.
    + rewrite !geo_fetches_app, G1. reflexivity.
    + rewrite !attempts_made_app, A1. reflexivity.
    + rewrite !slept_app, S1. reflexivity.
Qed.

Lemma run_when_wan_down_witness :
  socket_errors_only offline
  /\ never_answers offline PUBLIC_IP_SERVICE_URL []
  /\ exists st names,
       run offline true = (Ok tt, st)
       /\ length names = 2%nat
       /\ terminal_output st
          = String.concat ""
              (map (fun n => report_text (fst n) (snd n) CONNECTION_FAILED
                               NO_PUBLIC_IP) names)
       /\ posts (trace st) = [delivery (terminal_output st)]
       /\ geo_fetches (trace st) = 0%nat
       /\ attempts_made (trace st) = 6%nat
       /\ slept (trace st) = 6.
Proof.
  assert (Hsock : socket_errors_only offline)
    by (repeat split; intros; cbn; reflexivity).
  assert (Hfail : never_answers offline PUBLIC_IP_SERVICE_URL [])
    by (intros evs; eexists; reflexivity).
  split; [exact Hsock|]. split; [exact Hfail|].
  exact (run_when_wan_down offline true Hsock Hfail).
Defined.

(** ** Early failures of the local probe *)

(** X13. When [socket.gethostname()] raises a [socket.error],
    [get_local_info] returns ["N/A"] twice after one line on stderr, and no
    socket is created.  When the host name is read but [socket.socket]
    raises a [socket.error], it returns the host name with ["N/A"]; nothing
    is connected, resolved or closed. *)
Theorem get_local_info_early_failure (w : world) (st : state) (e : exn) :
  is_socket_error e = true ->
  (gethostname_out w (trace st) = Raise e ->
   get_local_info w st
   = (Ok ("N/A", "N/A"),
      extend [EGetHostName;
              EStderr (("Error retrieving local network info: " ++ exn_msg e)
                       ++ LF)] st))
  /\ (forall hostname,
        gethostname_out w (trace st) = Ok hostname ->
        socket_out w (trace st ++ [EGetHostName]) = Raise e ->
        get_local_info w st
        = (Ok (hostname, "N/A"),
           extend [EGetHostName; ESocket;
                   EStderr (("Error retrieving local network info: "
                             ++ exn_msg e) ++ LF)] st)).
Proof.
  intros He. split.
  - intros Hname.
    unfold get_local_info, try_except, bind, gethostname, call.
    rewrite Hname. cbn [select_handler]. rewrite He.
    unfold bind, eprint, ret. local_info_state. reflexivity.
  - intros hostname Hname Hsock.
    unfold get_local_info, try_except, bind, gethostname, socket_dgram, call.
    rewrite Hname. cbn [trace emit extend]. rewrite Hsock.
    cbn [select_handler]. rewrite He.
    unfold bind, eprint, ret. local_info_state. reflexivity.
Qed.

Lemma get_local_info_early_failure_witness :
  get_local_info nameless init_state
  = (Ok ("N/A", "N/A"),
     extend [EGetHostName;
             EStderr (("Error retrieving local network info: "
                       ++ "[Errno 14] Bad address") ++ LF)] init_state).
Proof.
  exact (proj1 (get_local_info_early_failure nameless init_state
                  (mkExn OSError "[Errno 14] Bad address") eq_refl)
           eq_refl).
Defined.

(** ** The location lookup is made whenever the WAN lookup did not fail *)

Lemma get_geolocation_contacts (w : world) (public_ip : string) (st : state) :
  public_ip <> CONNECTION_FAILED ->
  exists r evs,
    get_geolocation w public_ip st = (r, extend evs st)
    /\ (1 <= geo_fetches evs <= 3)%nat.
Proof.
  intros Hip.
  destruct (fetch_data_with_retry_fetch_run w GEOLOCATION_SERVICE_URL st)
    as (o & evs & E & Hrun).
  rewrite (get_geolocation_of_fetch w public_ip st o _ Hip E).
  assert (Hcount : (1 <= geo_fetches evs <= 3)%nat).
  { unfold MAX_RETRIES, INITIAL_DELAY in Hrun. invert_fetch_run; cbn; lia. }
  destruct o as [text|]; [destruct (truthy text)|];
    try (eexists _, evs; split; [reflexivity | exact Hcount]).
  destruct (json_loads w text) as [data|e];
    [destruct data | destruct (is_JSONDecodeError e)];
    eexists _, evs; (split; [reflexivity | exact Hcount]).
Qed.

(** X14. The converse of the skip: in a run of [main] whose WAN lookup
    returned anything but the failure text, be it the empty string that a
    body of blanks is trimmed to, the location service is contacted, with at
    least one and at most three requests after the lookup. *)
Theorem wan_success_contacts_location (w : world) (st st1 : state)
    (public_ip : string) :
  main_until_wan w st = (Ok public_ip, st1) ->
  public_ip <> CONNECTION_FAILED ->
  exists r st2 evs,
    main w st = (r, st2)
    /\ trace st2 = (trace st1 ++ evs)%list
    /\ (1 <= geo_fetches evs <= 3)%nat.
Proof.
  intros Hwan Hip.
  rewrite <- main_split, (bind_ok _ _ _ _ _ Hwan). unfold main_after_wan.
  destruct (String.eqb_spec public_ip CONNECTION_FAILED); [contradiction|].
  cbn [negb].
  set (P := fun e => is_geo_fetch e = false).
  assert (HP : forall t, P (EConsole t)) by reflexivity.
  destruct (print_returns P ("Public IP Address (WAN): " ++ public_ip) st1 HP)
    as (sa & Ea & (evsa & Ta & Fa)).
  rewrite (bind_ok _ _ _ _ _ Ea).
  destruct (get_geolocation_contacts w public_ip sa Hip)
    as (rg & evsg & Eg & Hcount).
  assert (Ga : geo_fetches evsa = 0%nat) by (apply no_geo_fetches, Fa).
  destruct rg as [geolocation|e].
  - pose proof (bind_ok _ (fun g => print ("Estimated Location:      " ++ g))
                  _ _ _ Eg) as Hline. cbv beta in Hline.
    destruct (print_returns P ("Estimated Location:      " ++ geolocation)
                (extend evsg sa) HP) as (sb & Eb & (evsb & Tb & Fb)).
    rewrite Eb in Hline. rewrite (bind_ok _ _ _ _ _ Hline).
    destruct (print_returns P RULE sb HP) as (sc & Ec & (evsc & Tc & Fc)).
    rewrite (bind_ok _ _ _ _ _ Ec).
    destruct (print_returns P (LF ++ "[Image of network topology]") sc HP)
      as (sd & Ed & (evsd & Td & Fd)).
    exists (Ok tt), sd, (evsa ++ evsg ++ evsb ++ evsc ++ evsd)%list.
    split; [exact Ed|]. split.
    + rewrite Td, Tc, Tb. cbn [trace extend]. rewrite Ta.
      rewrite <- !app_assoc. reflexivity.
    + rewrite !geo_fetches_app, Ga, (no_geo_fetches evsb Fb),
        (no_geo_fetches evsc Fc), (no_geo_fetches evsd Fd). lia.
  - pose proof (bind_raise _ (fun g => print ("Estimated Location:      " ++ g))
                  _ _ _ Eg) as Hline.
    rewrite (bind_raise _ _ _ _ _ Hline).
    exists (Raise e), (extend evsg sa), (evsa ++ evsg)%list.
    split; [reflexivity|]. split.
    + cbn [trace extend]. rewrite Ta, <- app_assoc. reflexivity.
    + rewrite geo_fetches_app, Ga. lia.
Qed.

Lemma wan_success_contacts_location_witness :
  main_until_wan blank_echo init_state
  = (Ok "", snd (main_until_wan blank_echo init_state))
  /\ exists r st2 evs,
       main blank_echo init_state = (r, st2)
       /\ trace st2
          = (trace (snd (main_until_wan blank_echo init_state)) ++ evs)%list
       /\ (1 <= geo_fetches evs <= 3)%nat.
Proof.
  assert (H : main_until_wan blank_echo init_state
              = (Ok "", snd (main_until_wan blank_echo init_state)))
    by (vm_compute; reflexivity).
  assert (Hip : "" <> CONNECTION_FAILED) by discriminate.
  split; [exact H|].
  exact (wan_success_contacts_location blank_echo init_state _ "" H Hip).
Defined.
